(** * Norms-Master: the SQLite-to-JSON export script

    A shallow embedding of [export_to_json.py].  The script is a straight
    line of calls into the Python runtime ([sqlite3], [json], [open],
    [print]); each call is modelled by a function on an explicit world
    state, in an exception monad, and the script itself is the sequence of
    those calls in the order of the source. *)

From Stdlib Require Import ZArith NArith Lia Ascii String.
From Stdlib Require Import DecimalPos DecimalFacts.
From stdpp Require Import base option list gmap strings.

Set Warnings "-register-all".

Local Open Scope N_scope.
Local Open Scope list_scope.

(** ** Python strings

    A Python [str] is a sequence of code points.  Literals of the source are
    written [lit "..."]. *)

Abbreviation pystr := (list N).

Fixpoint lit (s : string) : pystr :=
  match s with
  | EmptyString => []
  | String a r => N_of_ascii a :: lit r
  end.

(** [sep.join(parts)] *)
Fixpoint join (sep : pystr) (parts : list pystr) : pystr :=
  match parts with
  | [] => []
  | [p] => p
  | p :: ps => p ++ sep ++ join sep ps
  end.

(** [s.startswith(prefix)], returning the remainder of [s]. *)
Fixpoint strip_prefix (prefix s : pystr) : option pystr :=
  match prefix, s with
  | [], _ => Some s
  | p :: prefix', c :: s' => if N.eqb p c then strip_prefix prefix' s' else None
  | _ :: _, [] => None
  end.

(** ** Decimal rendering of integers: [int.__repr__] *)

Fixpoint digits_of_uint (d : Decimal.uint) : pystr :=
  match d with
  | Decimal.Nil => []
  | Decimal.D0 r => 48 :: digits_of_uint r
  | Decimal.D1 r => 49 :: digits_of_uint r
  | Decimal.D2 r => 50 :: digits_of_uint r
  | Decimal.D3 r => 51 :: digits_of_uint r
  | Decimal.D4 r => 52 :: digits_of_uint r
  | Decimal.D5 r => 53 :: digits_of_uint r
  | Decimal.D6 r => 54 :: digits_of_uint r
  | Decimal.D7 r => 55 :: digits_of_uint r
  | Decimal.D8 r => 56 :: digits_of_uint r
  | Decimal.D9 r => 57 :: digits_of_uint r
  end.

Definition int_repr (z : Z) : pystr :=
  match z with
  | Z0 => [48]
  | Zpos p => digits_of_uint (Pos.to_uint p)
  | Zneg p => 45 :: digits_of_uint (Pos.to_uint p)
  end.

(** ** Python dictionaries

    A [dict] keeps its keys in insertion order and [json] walks it in that
    order, so it is an association list; [d[k] = v] replaces the value of a
    key already present in place and appends a new key at the end. *)

Fixpoint dict_set {V} (k : pystr) (v : V) (d : list (pystr * V)) : list (pystr * V) :=
  match d with
  | [] => [(k, v)]
  | (k', v') :: d' =>
      if decide (k' = k) then (k, v) :: d' else (k', v') :: dict_set k v d'
  end.

Fixpoint dict_get {V} (k : pystr) (d : list (pystr * V)) : option V :=
  match d with
  | [] => None
  | (k', v') :: d' => if decide (k' = k) then Some v' else dict_get k d'
  end.

Definition dict_keys {V} (d : list (pystr * V)) : list pystr := map fst d.

(** [dict(pairs)] *)
Definition dict_of_pairs {V} (ps : list (pystr * V)) : list (pystr * V) :=
  fold_left (fun d kv => dict_set (fst kv) (snd kv) d) ps [].

(** ** Hexadecimal digits, lower case as the [x] format prints them *)

Definition hexdigit (d : N) : N := if d <? 10 then 48 + d else 87 + d.

(** The format [{0:04x}] at [n < 0x10000] *)
Definition hex4 (n : N) : pystr :=
  [hexdigit (N.shiftr n 12 mod 16); hexdigit (N.shiftr n 8 mod 16);
   hexdigit (N.shiftr n 4 mod 16); hexdigit (n mod 16)].

(** The format [{0:02x}] at a byte *)
Definition hex2 (n : N) : pystr := [hexdigit (N.shiftr n 4 mod 16); hexdigit (n mod 16)].

(** ** [bytes.__repr__], which is also [str(b)] for a [bytes] object

    The quote is the apostrophe unless the object contains an apostrophe and
    no double quote, in which case it is the double quote.  The quote
    and the backslash are escaped with a backslash, tab, newline and return
    have their letter escapes, every other byte outside [0x20..0x7e] is
    written [\xhh]. *)

Definition bytes_quote (b : list N) : N :=
  if existsb (N.eqb 39) b && negb (existsb (N.eqb 34) b) then 34 else 39.

Definition bytes_repr_char (quote c : N) : pystr :=
  if (c =? quote) || (c =? 92) then [92; c]
  else if c =? 9 then [92; 116]
  else if c =? 10 then [92; 110]
  else if c =? 13 then [92; 114]
  else if (c <? 32) || (127 <=? c) then [92; 120] ++ hex2 c
  else [c].

Definition bytes_repr (b : list N) : pystr :=
  let quote := bytes_quote b in
  [98; quote] ++ concat (map (bytes_repr_char quote) b) ++ [quote].

(** ** [json.encoder.py_encode_basestring_ascii]

    [ESCAPE_ASCII] matches the backslash, the double quote and every
    character outside space..tilde; the replacement is the short escape of
    [ESCAPE_DCT] when there is one, [\uXXXX] below [0x10000], and a
    surrogate pair above. *)

Definition escape_ascii (c : N) : pystr :=
  if c =? 34 then [92; 34]
  else if c =? 92 then [92; 92]
  else if c =? 10 then [92; 110]
  else if c =? 13 then [92; 114]
  else if c =? 9 then [92; 116]
  else if c =? 12 then [92; 102]
  else if c =? 8 then [92; 98]
  else if (32 <=? c) && (c <=? 126) then [c]
  else if c <? 65536 then [92; 117] ++ hex4 c
  else
    let n := c - 65536 in
    let s1 := N.lor 55296 (N.land (N.shiftr n 10) 1023) in
    let s2 := N.lor 56320 (N.land n 1023) in
    [92; 117] ++ hex4 s1 ++ [92; 117] ++ hex4 s2.

Definition encode_basestring_ascii (s : pystr) : pystr :=
  [34] ++ concat (map escape_ascii s) ++ [34].

(** ** [json.decoder.py_scanstring], strict

    The reader of a string literal a JSON parser applies when the file is
    parsed again, given the text after the opening quote; it returns the
    string and the text after the closing quote, and [None] where the
    parser raises.  An escape [\uXXXX] takes exactly four hexadecimal
    digits, as the JSON grammar has it. *)

Definition hexval (c : N) : option N :=
  if (48 <=? c) && (c <=? 57) then Some (c - 48)
  else if (97 <=? c) && (c <=? 102) then Some (c - 87)
  else if (65 <=? c) && (c <=? 70) then Some (c - 55)
  else None.

Definition decode_uXXXX (a b c d : N) : option N :=
  x1 ← hexval a; x2 ← hexval b; x3 ← hexval c; x4 ← hexval d;
  Some (((x1 * 16 + x2) * 16 + x3) * 16 + x4).

(** The table [BACKSLASH] *)
Definition backslash (esc : N) : option N :=
  if esc =? 34 then Some 34
  else if esc =? 92 then Some 92
  else if esc =? 47 then Some 47
  else if esc =? 98 then Some 8
  else if esc =? 102 then Some 12
  else if esc =? 110 then Some 10
  else if esc =? 114 then Some 13
  else if esc =? 116 then Some 9
  else None.

Definition push (c : N) (r : option (pystr * pystr)) : option (pystr * pystr) :=
  match r with
  | Some (str, rest) => Some (c :: str, rest)
  | None => None
  end.

Fixpoint scanstring (s : pystr) : option (pystr * pystr) :=
  match s with
  | [] => None
  | c :: s1 =>
      if c =? 34 then Some ([], s1)
      else if c =? 92 then
        match s1 with
        | [] => None
        | esc :: s2 =>
            if esc =? 117 then
              match s2 with
              | h1 :: h2 :: h3 :: h4 :: s3 =>
                  match decode_uXXXX h1 h2 h3 h4 with
                  | None => None
                  | Some uni =>
                      if (55296 <=? uni) && (uni <=? 56319) then
                        match s3 with
                        | b1 :: u1 :: s4 =>
                            if (b1 =? 92) && (u1 =? 117) then
                              match s4 with
                              | k1 :: k2 :: k3 :: k4 :: s5 =>
                                  match decode_uXXXX k1 k2 k3 k4 with
                                  | None => None
                                  | Some uni2 =>
                                      if (56320 <=? uni2) && (uni2 <=? 57343) then
                                        push (65536 + N.lor (N.shiftl (uni - 55296) 10)
                                                             (uni2 - 56320))
                                             (scanstring s5)
                                      else push uni (scanstring s3)
                                  end
                              | _ => None
                              end
                            else push uni (scanstring s3)
                        | _ => push uni (scanstring s3)
                        end
                      else push uni (scanstring s3)
                  end
              | _ => None
              end
            else
              match backslash esc with
              | Some ch => push ch (scanstring s2)
              | None => None
              end
        end
      else if c <? 32 then None
      else push c (scanstring s1)
  end.

(** A whole token read as a string literal: the opening quote, the string,
    and nothing after the closing quote. *)
Definition loads_string (token : pystr) : option pystr :=
  match token with
  | q :: s =>
      if q =? 34 then
        match scanstring s with
        | Some (str, []) => Some str
        | _ => None
        end
      else None
  | [] => None
  end.

(** ** An integer literal read back, as the JSON grammar has it *)




(** ** A bytes literal read back, as Python reads its own notation *)

(** The body of a bytes literal read back, given the quote it was opened
    with: the bytes up to the closing quote, and the text after it. *)
Fixpoint scanbytes (quote : N) (s : pystr) : option (list N * pystr) :=
  match s with
  | [] => None
  | c :: s1 =>
      if c =? quote then Some ([], s1)
      else if c =? 92 then
        match s1 with
        | [] => None
        | esc :: s2 =>
            if esc =? 120 then
              match s2 with
              | h1 :: h2 :: s3 =>
                  match hexval h1, hexval h2 with
                  | Some x1, Some x2 => push (x1 * 16 + x2) (scanbytes quote s3)
                  | _, _ => None
                  end
              | _ => None
              end
            else if esc =? 116 then push 9 (scanbytes quote s2)
            else if esc =? 110 then push 10 (scanbytes quote s2)
            else if esc =? 114 then push 13 (scanbytes quote s2)
            else if (esc =? 92) || (esc =? 39) || (esc =? 34) then push esc (scanbytes quote s2)
            else None
        end
      else push c (scanbytes quote s1)
  end.

(** A bytes literal read back: the letter, the quote, the body, nothing
    after. *)
Definition bytes_unrepr (s : pystr) : option (list N) :=
  match s with
  | b :: q :: body =>
      if (b =? 98) && ((q =? 39) || (q =? 34)) then
        match scanbytes q body with
        | Some (bs, []) => Some bs
        | _ => None
        end
      else None
  | _ => None
  end.

(** Text as SQLite hands it to Python: decoded from UTF-8, so no code point
    is a surrogate or lies beyond [0x10FFFF]. *)
Definition scalar_value (c : N) : bool :=
  (c <? 55296) || ((57343 <? c) && (c <? 1114112)).

Definition valid_text (s : pystr) : Prop := Forall (λ c, scalar_value c = true) s.

(** Text every character of which is ASCII. *)
Definition ascii_text (s : pystr) : Prop := Forall (λ c, c < 128) s.

(** A printable ASCII character. *)
Definition printable (c : N) : Prop := 32 <= c ∧ c <= 126.

(** ** Exceptions and outcomes of a computation that may raise *)

Inductive exn :=
| OperationalError (msg : pystr)
| DatabaseError (msg : pystr)
| IsADirectoryError (path : pystr)
| TypeError (msg : pystr).

Inductive outcome (A : Type) :=
| Return (a : A)
| Raise (e : exn).
Arguments Return {A} a.
Arguments Raise {A} e.

Section Exporter.

(** Finite floating-point numbers and [float.__repr__] are taken as given:
    the script never computes with a float, it only prints the ones the
    database holds. *)
Context {finite : Type}.
Variable float_repr : finite → pystr.

Inductive pyfloat := FNan | FInf | FNegInf | FFin (x : finite).

(** [json.encoder.floatstr] with [allow_nan=True] *)
Definition floatstr (o : pyfloat) : pystr :=
  match o with
  | FNan => lit "NaN"
  | FInf => lit "Infinity"
  | FNegInf => lit "-Infinity"
  | FFin x => float_repr x
  end.

(** ** Values

    [sqlvalue] is what a column of a fetched row holds with the default
    [detect_types=0]: one of the five storage classes, each mapped to its
    Python type.  [pyvalue] adds the containers the script builds. *)

Inductive sqlvalue :=
| SNull
| SInteger (z : Z)
| SReal (f : pyfloat)
| SText (s : pystr)
| SBlob (b : list N).

Inductive pyvalue :=
| PNone
| PInt (z : Z)
| PFloat (f : pyfloat)
| PStr (s : pystr)
| PBytes (b : list N)
| PList (l : list pyvalue)
| PDict (d : list (pystr * pyvalue)).

Definition py_of_sql (v : sqlvalue) : pyvalue :=
  match v with
  | SNull => PNone
  | SInteger z => PInt z
  | SReal f => PFloat f
  | SText s => PStr s
  | SBlob b => PBytes b
  end.

(** ** [json.JSONEncoder.iterencode], chunks concatenated

    [indent] is the number of spaces per level and [default] the fallback
    hook, called on a value the encoder has no rule for; among [pyvalue]
    that is a [bytes] object.  The hook is taken [str]-valued, as [str] is.
    Without a hook such a value raises [TypeError] ([None] here). *)

Definition newline_indent (indent level : nat) : pystr :=
  10 :: repeat 32 (indent * level)%nat.

Section Encoder.

Variable indent : nat.
Variable default : option (list N → pystr).

(** The text of a non-empty array or object at nesting depth [level]. *)
Definition render_members (level : nat) (opening closing : pystr) (items : list pystr)
  : pystr :=
  opening ++ newline_indent indent (S level)
  ++ join (lit "," ++ newline_indent indent (S level)) items
  ++ newline_indent indent level ++ closing.

Fixpoint iterencode (level : nat) (o : pyvalue) : option pystr :=
  match o with
  | PStr s => Some (encode_basestring_ascii s)
  | PNone => Some (lit "null")
  | PInt z => Some (int_repr z)
  | PFloat f => Some (floatstr f)
  | PList l =>
      match l with
      | [] => Some (lit "[]")
      | _ =>
          items ← mapM (iterencode (S level)) l;
          Some (render_members level (lit "[") (lit "]") items)
      end
  | PDict d =>
      match d with
      | [] => Some (lit "{}")
      | _ =>
          items ← mapM (λ kv, c ← iterencode (S level) kv.2;
                              Some (encode_basestring_ascii kv.1 ++ lit ": " ++ c)) d;
          Some (render_members level (lit "{") (lit "}") items)
      end
  | PBytes b =>
      match default with
      | None => None
      | Some f => Some (encode_basestring_ascii (f b))
      end
  end.

End Encoder.

(** [json.dumps(o, indent=2, default=str)] *)
Definition json_dumps (o : pyvalue) : option pystr :=
  iterencode 2 (Some bytes_repr) 0 o.

(** ** The world the script runs in

    A file is a SQLite image of a database, some other bytes, or a
    directory.  The zero-length file is [FText []]; SQLite reads it as a
    database with no tables.  A database maps the name of a table to its
    columns and stored records; SQLite resolves names without regard to
    case, so the keys are the names in lower case, as the script writes
    them.  Nothing else touches the working directory while the script
    runs, and the console takes whatever is printed. *)

Record table := { columns : list pystr; records : list (list sqlvalue) }.

Inductive file :=
| FDatabase (db : gmap pystr table)
| FText (content : pystr)
| FDir.

Definition read_database (f : file) : option (gmap pystr table) :=
  match f with
  | FDatabase db => Some db
  | FText [] => Some ∅
  | FText (_ :: _) => None
  | FDir => None
  end.

(** [sqlite3.Row]: the column names of the statement and one record *)
Record Row := { keys : list pystr; vals : list sqlvalue }.

Record world := {
  fs : gmap pystr file;        (* the working directory *)
  stdout : list pystr;         (* lines printed so far *)
  sql_log : list pystr;        (* statements handed to the engine so far *)
  pending : list Row           (* result set the cursor has not yet handed out *)
}.

Definition set_fs (f : gmap pystr file) (w : world) : world :=
  {| fs := f; stdout := stdout w; sql_log := sql_log w; pending := pending w |}.
Definition set_pending (rs : list Row) (w : world) : world :=
  {| fs := fs w; stdout := stdout w; sql_log := sql_log w; pending := rs |}.
Definition log_sql (sql : pystr) (w : world) : world :=
  {| fs := fs w; stdout := stdout w; sql_log := sql_log w ++ [sql]; pending := pending w |}.
Definition emit (line : pystr) (w : world) : world :=
  {| fs := fs w; stdout := stdout w ++ [line]; sql_log := sql_log w; pending := pending w |}.

(** ** Computations over the world that may raise *)

Definition M (A : Type) : Type := world → outcome A * world.

#[export] Instance M_ret : MRet M := λ A a w, (Return a, w).
#[export] Instance M_bind : MBind M := λ A B k m w,
  match m w with
  | (Return a, w') => k a w'
  | (Raise e, w') => (Raise e, w')
  end.

Definition raise {A} (e : exn) : M A := λ w, (Raise e, w).

(** ** The runtime calls the script makes *)

Definition print (line : pystr) : M unit := λ w, (Return (), emit line w).

(** [sqlite3.connect(path)] opens the file read-write and creates it when
    it is absent; nothing of the file is read yet.  The connection is
    represented by the path it is bound to. *)
Definition sqlite3_connect (path : pystr) : M pystr := λ w,
  match fs w !! path with
  | None => (Return path, set_fs (<[path := FText []]> (fs w)) w)
  | Some FDir => (Raise (OperationalError (lit "unable to open database file")), w)
  | Some _ => (Return path, w)
  end.

Section Script.

(** The order in which the engine hands out the stored records of a table
    for a [SELECT] with no [ORDER BY]. *)
Variable fetch_order : pystr → list (list sqlvalue) → list (list sqlvalue).

(** [cursor.execute(sql)] for the one statement shape the script issues. *)
Definition cursor_execute (conn sql : pystr) : M unit := λ w,
  let w := log_sql sql w in
  match fs w !! conn with
  | Some f =>
      match read_database f with
      | Some db =>
          match strip_prefix (lit "SELECT * FROM ") sql with
          | Some name =>
              match db !! name with
              | Some t =>
                  (Return (),
                   set_pending (map (Build_Row (columns t)) (fetch_order name (records t))) w)
              | None => (Raise (OperationalError (lit "no such table: " ++ name)), w)
              end
          | None => (Raise (OperationalError (lit "syntax error")), w)
          end
      | None =>
          match f with
          | FDir => (Raise (OperationalError (lit "unable to open database file")), w)
          | _ => (Raise (DatabaseError (lit "file is not a database")), w)
          end
      end
  | None => (Raise (OperationalError (lit "unable to open database file")), w)
  end.

(** [cursor.fetchall()] *)
Definition cursor_fetchall : M (list Row) := λ w, (Return (pending w), set_pending [] w).

(** [dict(row)] *)
Definition dict_of_row (r : Row) : pyvalue :=
  PDict (dict_of_pairs (combine (keys r) (map py_of_sql (vals r)))).

(** [open(path, 'w')]: creates or truncates the file. *)
Definition open_w (path : pystr) : M pystr := λ w,
  match fs w !! path with
  | Some FDir => (Raise (IsADirectoryError path), w)
  | _ => (Return path, set_fs (<[path := FText []]> (fs w)) w)
  end.

(** [json.dump(o, f, indent=2, default=str)]; the text is ASCII, so the
    bytes on disk are its code points. *)
Definition json_dump (o : pyvalue) (f : pystr) : M unit := λ w,
  match json_dumps o with
  | Some text => (Return (), set_fs (<[f := FText text]> (fs w)) w)
  | None => (Raise (TypeError (lit "Object is not JSON serializable")), w)
  end.

(** [conn.close()] *)
Definition conn_close (conn : pystr) : M unit := mret ().

(** ** The script *)

Definition tables : list pystr :=
  [lit "norms"; lit "norm_resources"; lit "rates"; lit "projects"; lit "boq_items"].

(** The body of [for table in tables], with [data] threaded through. *)
Fixpoint export_tables (conn : pystr) (ts : list pystr) (data : list (pystr * pyvalue))
  : M (list (pystr * pyvalue)) :=
  match ts with
  | [] => mret data
  | table :: ts' =>
      cursor_execute conn (lit "SELECT * FROM " ++ table);;
      rows ← cursor_fetchall;
      let data := dict_set table (PList (map dict_of_row rows)) data in
      print ([9989] ++ lit " Exported " ++ int_repr (Z.of_nat (length rows))
             ++ lit " rows from " ++ table);;
      export_tables conn ts' data
  end.

(** [conn.row_factory = sqlite3.Row] and [conn.cursor()] touch neither the
    files nor the console: rows are [Row] values from the start, and the
    one cursor is the [pending] result set of the world. *)
Definition export_to_json : M unit :=
  print ([128260] ++ lit " Exporting SQLite data...");;
  conn ← sqlite3_connect (lit "norms_decoded.db");
  data ← export_tables conn tables [];
  f ← open_w (lit "norms_data.json");
  json_dump (PDict data) f;;
  conn_close conn;;
  print ([127881] ++ lit " Export complete! norms_data.json created").

(** The script up to the end of the loop, and from [open] on. *)
Definition read_phase : M (list (pystr * pyvalue)) :=
  print ([128260] ++ lit " Exporting SQLite data...");;
  conn ← sqlite3_connect (lit "norms_decoded.db");
  export_tables conn tables [].

Definition write_phase (data : list (pystr * pyvalue)) : M unit :=
  f ← open_w (lit "norms_data.json");
  json_dump (PDict data) f;;
  conn_close (lit "norms_decoded.db");;
  print ([127881] ++ lit " Export complete! norms_data.json created").

(** The first line printed. *)
Definition start_line : pystr := [128260] ++ lit " Exporting SQLite data...".

(** The working directory once [sqlite3.connect] has returned. *)
Definition connected (fsys : gmap pystr file) : gmap pystr file :=
  match fsys !! lit "norms_decoded.db" with
  | None => <[lit "norms_decoded.db" := FText []]> fsys
  | Some _ => fsys
  end.

(** A JSON array. *)
Definition is_array (o : pyvalue) : Prop := ∃ l, o = PList l.

(** ** What the loop computes, as a function of the file system *)

Definition select_all (t : pystr) : pystr := lit "SELECT * FROM " ++ t.

Definition table_rows (fsys : gmap pystr file) (conn t : pystr) : option (list Row) :=
  f ← fsys !! conn;
  db ← read_database f;
  tb ← db !! t;
  Some (map (Build_Row (columns tb)) (fetch_order t (records tb))).

Fixpoint collect (fsys : gmap pystr file) (conn : pystr) (ts : list pystr)
    (data : list (pystr * pyvalue)) : option (list (pystr * pyvalue)) :=
  match ts with
  | [] => Some data
  | t :: ts' =>
      rows ← table_rows fsys conn t;
      collect fsys conn ts' (dict_set t (PList (map dict_of_row rows)) data)
  end.

Definition query_error (e : exn) : Prop :=
  match e with
  | OperationalError _ | DatabaseError _ => True
  | _ => False
  end.

(** The tables of the list with the rows the engine hands out for each. *)
Definition fetch_all (fsys : gmap pystr file) (conn : pystr) (ts : list pystr)
  : option (list (pystr * list Row)) :=
  mapM (λ t, rows ← table_rows fsys conn t; Some (t, rows)) ts.

(** The entry [data[table]] the loop body stores. *)
Definition entry (tr : pystr * list Row) : pystr * pyvalue :=
  (tr.1, PList (map dict_of_row tr.2)).

(** ** The console and the errors, as functions of the file system *)

(** The line the loop body prints for a table and its fetched rows. *)
Definition progress_line (tr : pystr * list Row) : pystr :=
  [9989] ++ lit " Exported " ++ int_repr (Z.of_nat (length tr.2))
  ++ lit " rows from " ++ tr.1.

(** The last line printed. *)
Definition done_line : pystr :=
  [127881] ++ lit " Export complete! norms_data.json created".

(** The exception [cursor.execute] raises for a table it finds no rows
    for. *)
Definition execute_error (fsys : gmap pystr file) (conn t : pystr) : exn :=
  match fsys !! conn with
  | Some f =>
      match read_database f with
      | Some _ => OperationalError (lit "no such table: " ++ t)
      | None =>
          match f with
          | FDir => OperationalError (lit "unable to open database file")
          | _ => DatabaseError (lit "file is not a database")
          end
      end
  | None => OperationalError (lit "unable to open database file")
  end.

(** The tables fetched before the first one that fails, and that one. *)
Fixpoint fetch_prefix (fsys : gmap pystr file) (conn : pystr) (ts : list pystr)
  : list (pystr * list Row) * option pystr :=
  match ts with
  | [] => ([], None)
  | t :: ts' =>
      match table_rows fsys conn t with
      | Some rows =>
          let (trs, failed) := fetch_prefix fsys conn ts' in ((t, rows) :: trs, failed)
      | None => ([], Some t)
      end
  end.

End Script.

(** A value that holds a [bytes] object somewhere. *)
Fixpoint contains_bytes (o : pyvalue) : bool :=
  match o with
  | PBytes _ => true
  | PList l => existsb contains_bytes l
  | PDict d => existsb (λ kv, contains_bytes kv.2) d
  | _ => false
  end.

(** ** The output format, as the interface description words it

    A top-level object keyed by table name, each value an array of objects,
    one per row, keyed by column name, the values JSON-native or coerced to
    a string; two spaces of indentation per level.  These definitions follow
    that description, not the encoder; the properties below compare the
    two. *)

(** The fields of a row: what [dict(row)] holds, before any value is
    converted. *)
Definition row_fields (r : Row) : list (pystr * sqlvalue) :=
  dict_of_pairs (combine (keys r) (vals r)).

(** A field as [dict(row)] holds it, the value converted to Python. *)
Definition convert_field (kv : pystr * sqlvalue) : pystr * pyvalue :=
  (kv.1, py_of_sql kv.2).

(** A table of the document in the shape the description gives it. *)
Definition typed_entry (tr : pystr * list Row) : pystr * list (list (pystr * sqlvalue)) :=
  (tr.1, map row_fields tr.2).


Definition field_token (v : sqlvalue) : pystr :=
  match v with
  | SNull => lit "null"
  | SInteger z => int_repr z
  | SReal f => floatstr f
  | SText s => encode_basestring_ascii s
  | SBlob b => encode_basestring_ascii (bytes_repr b)
  end.

Definition spaces (n : nat) : pystr := repeat 32 n.

Definition pretty_field (kv : pystr * sqlvalue) : pystr :=
  encode_basestring_ascii kv.1 ++ lit ": " ++ field_token kv.2.

Definition pretty_row (fields : list (pystr * sqlvalue)) : pystr :=
  match fields with
  | [] => lit "{}"
  | _ =>
      lit "{" ++ [10] ++ spaces 6
      ++ join (lit "," ++ [10] ++ spaces 6) (map pretty_field fields)
      ++ [10] ++ spaces 4 ++ lit "}"
  end.

Definition pretty_table (rows : list (list (pystr * sqlvalue))) : pystr :=
  match rows with
  | [] => lit "[]"
  | _ =>
      lit "[" ++ [10] ++ spaces 4
      ++ join (lit "," ++ [10] ++ spaces 4) (map pretty_row rows)
      ++ [10] ++ spaces 2 ++ lit "]"
  end.

Definition pretty_document (doc : list (pystr * list (list (pystr * sqlvalue)))) : pystr :=
  match doc with
  | [] => lit "{}"
  | _ =>
      lit "{" ++ [10] ++ spaces 2
      ++ join (lit "," ++ [10] ++ spaces 2)
           (map (λ kt, encode_basestring_ascii kt.1 ++ lit ": " ++ pretty_table kt.2) doc)
      ++ [10] ++ lit "}"
  end.

End Exporter.

(** * Sample worlds

    A small instance on which the script can be run: floats are the
    multiples of one half, printed as Python prints them. *)

Definition half_repr (x : Z) : pystr :=
  (if (x <? 0)%Z then [45] else [])
  ++ int_repr (Z.abs x / 2) ++ (if Z.even x then lit ".0" else lit ".5").

(** The engine hands the records out in storage order. *)
Definition storage_order (t : pystr) (rs : list (list (sqlvalue (finite:=Z)))) := rs.

(** The engine hands the records out last to first. *)
Definition reverse_order (t : pystr) (rs : list (list (sqlvalue (finite:=Z)))) := rev rs.

Definition sample_norms : table (finite:=Z) :=
  {| columns := [lit "id"; lit "name"; lit "photo"; lit "qty"];
     records :=
       [[SInteger 1; SText (lit "Earthwork in excavation"); SBlob [104; 105; 39; 0; 255];
         SReal (FFin 5%Z)];
        [SInteger (-20); SNull; SBlob [39; 34]; SReal FInf];
        [SInteger 3; SText [233; 128512; 34; 92]; SBlob []; SReal (FFin (-3)%Z)]] |}.

Definition sample_empty : table (finite:=Z) :=
  {| columns := [lit "id"]; records := [] |}.

Definition sample_db : gmap pystr (table (finite:=Z)) :=
  <[lit "norms" := sample_norms]>
    (<[lit "norm_resources" := sample_empty]>
       (<[lit "rates" := sample_empty]>
          (<[lit "projects" := sample_empty]>
             (<[lit "boq_items" := sample_empty]> ∅)))).

Definition world_of (fsys : gmap pystr (file (finite:=Z))) : world :=
  {| fs := fsys; stdout := []; sql_log := []; pending := [] |}.

(** The database is in place, and an older export lies in the way. *)
Definition sample_world : world :=
  world_of (<[lit "norms_data.json" := FText (lit "stale")]>
              {[ lit "norms_decoded.db" := FDatabase sample_db ]}).

(** No database file. *)
Definition absent_world : world :=
  world_of {[ lit "norms_data.json" := FText (lit "stale") ]}.

(** The database file is not a SQLite image. *)
Definition garbage_world : world :=
  world_of {[ lit "norms_decoded.db" := FText (lit "not a database") ]}.

(** The path of the database is a directory. *)
Definition directory_world : world :=
  world_of {[ lit "norms_decoded.db" := FDir ]}.


(** The first record of [norms], as the cursor hands it out. *)
Definition sample_row : Row (finite:=Z) :=
  {| keys := [lit "id"; lit "name"; lit "photo"; lit "qty"];
     vals := [SInteger 1; SText (lit "Earthwork in excavation"); SBlob [104; 105; 39; 0; 255];
              SReal (FFin 5%Z)] |}.

(** The table [rates] is missing. *)
Definition missing_table_world : world :=
  world_of (<[lit "norms_data.json" := FText (lit "stale")]>
              {[ lit "norms_decoded.db" := FDatabase (delete (lit "rates") sample_db) ]}).

(** [C3] as the specification states it: with the database file absent the
    open fails, and no statement reaches the engine. *)
Definition open_fails_when_absent (w : world (finite:=Z)) : Prop :=
  fs w !! lit "norms_decoded.db" = None →
  (∃ e w1, sqlite3_connect (lit "norms_decoded.db") (emit start_line w) = (Raise e, w1))
  ∧ sql_log (export_to_json half_repr storage_order w).2 = sql_log w.

(** * Properties *)

(** ** String literals read back *)

(** [lia] is to reason about the divisions by constants below. *)
Ltac Zify.zify_convert_to_euclidean_division_equations_flag ::= constr:(true).

Lemma hexval_hexdigit d : d < 16 → hexval (hexdigit d) = Some d.
Proof.
  intros H.
  destruct d as [|p]; [reflexivity|].
  do 4 (destruct p as [p|p|]; try reflexivity); exfalso; lia.
Qed.

Lemma decode_hex4 n :
  n < 65536 →
  decode_uXXXX (hexdigit (N.shiftr n 12 mod 16)) (hexdigit (N.shiftr n 8 mod 16))
               (hexdigit (N.shiftr n 4 mod 16)) (hexdigit (n mod 16)) = Some n.
Proof.
  intros H. unfold decode_uXXXX.
  rewrite !N.shiftr_div_pow2.
  change (2 ^ 12) with 4096. change (2 ^ 8) with 256. change (2 ^ 4) with 16.
  rewrite !hexval_hexdigit by lia.
  cbn [mbind option_bind]. f_equal. lia.
Qed.

Lemma scanstring_literal c s :
  (c =? 34) = false → (c =? 92) = false → (c <? 32) = false →
  scanstring (c :: s) = push c (scanstring s).
Proof. intros H1 H2 H3. cbn [scanstring]. now rewrite H1, H2, H3. Qed.

Lemma scanstring_u h1 h2 h3 h4 uni s :
  decode_uXXXX h1 h2 h3 h4 = Some uni →
  (55296 <=? uni) && (uni <=? 56319) = false →
  scanstring (92 :: 117 :: h1 :: h2 :: h3 :: h4 :: s) = push uni (scanstring s).
Proof.
  intros H1 H2. cbn [scanstring].
  change (92 =? 34) with false. change (92 =? 92) with true. change (117 =? 117) with true.
  cbv iota. now rewrite H1, H2.
Qed.

Lemma scanstring_pair h1 h2 h3 h4 k1 k2 k3 k4 uni uni2 s :
  decode_uXXXX h1 h2 h3 h4 = Some uni →
  (55296 <=? uni) && (uni <=? 56319) = true →
  decode_uXXXX k1 k2 k3 k4 = Some uni2 →
  (56320 <=? uni2) && (uni2 <=? 57343) = true →
  scanstring (92 :: 117 :: h1 :: h2 :: h3 :: h4 :: 92 :: 117 :: k1 :: k2 :: k3 :: k4 :: s)
  = push (65536 + N.lor (N.shiftl (uni - 55296) 10) (uni2 - 56320)) (scanstring s).
Proof.
  intros H1 H2 H3 H4. cbn [scanstring].
  change (92 =? 34) with false. change (92 =? 92) with true. change (117 =? 117) with true.
  cbv iota. rewrite H1, H2. cbn [andb]. now rewrite H3, H4.
Qed.

Lemma lor_shiftl_low h l k : l < 2 ^ k → N.lor (N.shiftl h k) l = h * 2 ^ k + l.
Proof.
  intros Hl.
  assert (Hland : N.land (N.shiftl h k) l = 0).
  { apply N.bits_inj. intros i. rewrite N.land_spec, N.bits_0.
    destruct (N.lt_ge_cases i k) as [Hi|Hi].
    - now rewrite N.shiftl_spec_low.
    - rewrite <- (N.mod_small l (2 ^ k)) by assumption.
      rewrite N.mod_pow2_bits_high by assumption. apply andb_false_r. }
  rewrite <- N.lxor_lor by assumption.
  rewrite <- N.add_nocarry_lxor by assumption.
  now rewrite N.shiftl_mul_pow2.
Qed.

Lemma scanstring_escape c tail :
  scalar_value c = true →
  scanstring (escape_ascii c ++ tail) = push c (scanstring tail).
Proof.
  intros Hc. unfold escape_ascii, scalar_value in *.
  destruct (c =? 34) eqn:E34; [apply N.eqb_eq in E34 as ->; reflexivity|].
  destruct (c =? 92) eqn:E92; [apply N.eqb_eq in E92 as ->; reflexivity|].
  destruct (c =? 10) eqn:E10; [apply N.eqb_eq in E10 as ->; reflexivity|].
  destruct (c =? 13) eqn:E13; [apply N.eqb_eq in E13 as ->; reflexivity|].
  destruct (c =? 9) eqn:E9; [apply N.eqb_eq in E9 as ->; reflexivity|].
  destruct (c =? 12) eqn:E12; [apply N.eqb_eq in E12 as ->; reflexivity|].
  destruct (c =? 8) eqn:E8; [apply N.eqb_eq in E8 as ->; reflexivity|].
  destruct ((32 <=? c) && (c <=? 126)) eqn:Eprint.
  { apply scanstring_literal; try assumption.
    apply andb_true_iff in Eprint as [H32 _].
    apply N.leb_le in H32. apply N.ltb_ge. exact H32. }
  destruct (c <? 65536) eqn:Ebmp.
  - apply N.ltb_lt in Ebmp.
    cbn [app hex4]. apply scanstring_u; [now apply decode_hex4|].
    apply orb_true_iff in Hc as [Hlow|Hhigh].
    + apply N.ltb_lt in Hlow. apply andb_false_iff. left. apply N.leb_gt. exact Hlow.
    + apply andb_true_iff in Hhigh as [Hhigh _]. apply N.ltb_lt in Hhigh.
      apply andb_false_iff. right. apply N.leb_gt. lia.
  - apply N.ltb_ge in Ebmp.
    assert (Hmax : c < 1114112).
    { apply orb_true_iff in Hc as [Hlow|Hhigh].
      - apply N.ltb_lt in Hlow. lia.
      - apply andb_true_iff in Hhigh as [_ Hhigh]. now apply N.ltb_lt in Hhigh. }
    cbv zeta.
    rewrite (N.land_ones _ 10 : N.land _ 1023 = _ mod 2 ^ 10).
    rewrite (N.land_ones _ 10 : N.land (c - 65536) 1023 = _ mod 2 ^ 10).
    rewrite N.shiftr_div_pow2.
    change 55296 with (N.shiftl 54 10) at 1. change 56320 with (N.shiftl 55 10) at 1.
    rewrite !lor_shiftl_low by (apply N.mod_upper_bound; discriminate).
    change (2 ^ 10) with 1024.
    cbn [app hex4].
    repeat rewrite <- app_assoc. cbn [app].
    rewrite (scanstring_pair _ _ _ _ _ _ _ _
               (54 * 1024 + (c - 65536) / 1024 mod 1024)
               (55 * 1024 + (c - 65536) mod 1024)).
    + f_equal. rewrite lor_shiftl_low; change (2 ^ 10) with 1024; lia.
    + apply decode_hex4. lia.
    + apply andb_true_iff. split; apply N.leb_le; lia.
    + apply decode_hex4. lia.
    + apply andb_true_iff. split; apply N.leb_le; lia.
Qed.

Lemma scanstring_concat s rest :
  valid_text s →
  scanstring (concat (map escape_ascii s) ++ 34 :: rest) = Some (s, rest).
Proof.
  intros Hs. induction Hs as [|c s Hc Hs IH]; [reflexivity|].
  cbn [map concat]. rewrite <- app_assoc, scanstring_escape by assumption.
  now rewrite IH.
Qed.

Lemma loads_string_encode s :
  valid_text s → loads_string (encode_basestring_ascii s) = Some s.
Proof.
  intros Hs. unfold encode_basestring_ascii, loads_string. cbn [app].
  change (34 =? 34) with true. cbv iota.
  now rewrite (scanstring_concat s [] Hs).
Qed.

(** Integers read back *)




(** [bytes.__repr__] writes printable ASCII only. *)

Lemma hexdigit_printable d : d < 16 → printable (hexdigit d).
Proof. unfold hexdigit, printable. intros H. destruct (d <? 10) eqn:E; lia. Qed.

Lemma bytes_quote_cases b : bytes_quote b = 39 ∨ bytes_quote b = 34.
Proof. unfold bytes_quote. destruct (_ && _); auto. Qed.

Lemma bytes_repr_char_printable q c :
  q = 39 ∨ q = 34 → Forall printable (bytes_repr_char q c).
Proof.
  intros Hq. unfold bytes_repr_char.
  destruct ((c =? q) || (c =? 92)) eqn:E1.
  { apply orb_true_iff in E1 as [E|E]; apply N.eqb_eq in E;
      repeat constructor; unfold printable; lia. }
  destruct (c =? 9); [repeat constructor; unfold printable; lia|].
  destruct (c =? 10); [repeat constructor; unfold printable; lia|].
  destruct (c =? 13); [repeat constructor; unfold printable; lia|].
  destruct ((c <? 32) || (127 <=? c)) eqn:E2.
  - cbn [app hex2]. repeat constructor; try (unfold printable; lia);
      apply hexdigit_printable; apply N.mod_upper_bound; discriminate.
  - apply orb_false_iff in E2 as [Ea Eb].
    apply N.ltb_ge in Ea. apply N.leb_gt in Eb.
    repeat constructor; unfold printable; lia.
Qed.

Lemma bytes_repr_printable b : Forall printable (bytes_repr b).
Proof.
  unfold bytes_repr. cbv zeta.
  pose proof (bytes_quote_cases b) as Hq.
  apply Forall_app. split; [|apply Forall_app; split].
  - repeat constructor; unfold printable; lia.
  - apply Forall_concat, Forall_map.
    apply Forall_forall. intros c _. now apply bytes_repr_char_printable.
  - repeat constructor; unfold printable; lia.
Qed.

Lemma printable_valid_text s : Forall printable s → valid_text s.
Proof.
  intros Hs. eapply Forall_impl; [exact Hs|].
  intros c [_ Hc]. unfold scalar_value.
  apply orb_true_iff. left. apply N.ltb_lt. lia.
Qed.

Lemma bytes_repr_char_nonempty q c : (1 <= length (bytes_repr_char q c))%nat.
Proof.
  unfold bytes_repr_char.
  repeat match goal with |- context [if ?b then _ else _] => destruct b end;
    cbn [length app hex2]; lia.
Qed.

Lemma bytes_repr_length b : (length b + 3 <= length (bytes_repr b))%nat.
Proof.
  unfold bytes_repr. cbv zeta. rewrite !length_app. cbn [length].
  assert (H : (length b <= length (concat (map (bytes_repr_char (bytes_quote b)) b)))%nat).
  { generalize (bytes_quote b) as q. intros q.
    induction b as [|c b IH]; [cbn; lia|].
    cbn [map concat length]. rewrite length_app.
    pose proof (bytes_repr_char_nonempty q c). lia. }
  lia.
Qed.

Section Properties.

Context {finite : Type}.
Variable float_repr : finite → pystr.

Abbreviation db_path := (lit "norms_decoded.db").
Abbreviation out_path := (lit "norms_data.json").

(** ** The monad *)

Lemma bind_Return {A B} (m : M (finite:=finite) A) (k : A → M B) w a w1 :
  m w = (Return a, w1) → (m ≫= k) w = k a w1.
Proof. intros H. unfold mbind, M_bind. now rewrite H. Qed.

Lemma bind_Raise {A B} (m : M (finite:=finite) A) (k : A → M B) w e w1 :
  m w = (Raise e, w1) → (m ≫= k) w = (Raise e, w1).
Proof. intros H. unfold mbind, M_bind. now rewrite H. Qed.

Lemma strip_prefix_app p s : strip_prefix p (p ++ s) = Some s.
Proof.
  induction p as [|c p IH]; simpl; [reflexivity|].
  now rewrite N.eqb_refl.
Qed.

(** ** The loop *)

Section Loop.

Variable fetch_order :
  pystr → list (list (sqlvalue (finite:=finite))) → list (list (sqlvalue (finite:=finite))).

Lemma cursor_execute_ok conn t rows (w : world (finite:=finite)) :
  table_rows fetch_order (fs w) conn t = Some rows →
  cursor_execute fetch_order conn (select_all t) w
  = (Return (), set_pending rows (log_sql (select_all t) w)).
Proof.
  unfold table_rows, cursor_execute, select_all. cbn [fs log_sql].
  rewrite strip_prefix_app.
  destruct (fs w !! conn) as [f|]; cbn; [|discriminate].
  destruct (read_database f) as [db|]; cbn; [|discriminate].
  destruct (db !! t) as [tb|]; cbn; [|discriminate].
  now intros [= <-].
Qed.

Lemma cursor_execute_err conn t (w : world (finite:=finite)) :
  table_rows fetch_order (fs w) conn t = None →
  ∃ e, query_error e
       ∧ cursor_execute fetch_order conn (select_all t) w
         = (Raise e, log_sql (select_all t) w).
Proof.
  unfold table_rows, cursor_execute, select_all. cbn [fs log_sql].
  rewrite strip_prefix_app.
  destruct (fs w !! conn) as [f|]; cbn; [|intros _; eexists; split; [|reflexivity]; exact I].
  destruct (read_database f) as [db|] eqn:Hdb; cbn.
  - destruct (db !! t) as [tb|]; cbn; [discriminate|].
    intros _; eexists; split; [|reflexivity]; exact I.
  - intros _. destruct f as [db|c|]; [discriminate| |];
      (eexists; split; [|reflexivity]; exact I).
Qed.

Lemma export_tables_cons conn t ts data (w : world (finite:=finite)) :
  export_tables fetch_order conn (t :: ts) data w
  = match cursor_execute fetch_order conn (select_all t) w with
    | (Return _, w1) =>
        export_tables fetch_order conn ts
          (dict_set t (PList (map dict_of_row (pending w1))) data)
          (emit ([9989] ++ lit " Exported " ++ int_repr (Z.of_nat (length (pending w1)))
                 ++ lit " rows from " ++ t) (set_pending [] w1))
    | (Raise e, w1) => (Raise e, w1)
    end.
Proof.
  cbn [export_tables]. unfold mbind, M_bind, select_all.
  destruct (cursor_execute _ _ _ w) as [[[]|e] w1]; reflexivity.
Qed.

Lemma export_tables_run conn ts data (w : world (finite:=finite)) :
  match collect fetch_order (fs w) conn ts data with
  | Some d =>
      ∃ w', export_tables fetch_order conn ts data w = (Return d, w')
            ∧ fs w' = fs w
            ∧ sql_log w' = sql_log w ++ map select_all ts
  | None =>
      ∃ e w' n, export_tables fetch_order conn ts data w = (Raise e, w')
            ∧ fs w' = fs w
            ∧ query_error e
            ∧ (n < length ts)%nat
            ∧ sql_log w' = sql_log w ++ map select_all (take (S n) ts)
  end.
Proof.
  revert data w. induction ts as [|t ts IH]; intros data w.
  - exists w. cbn. now rewrite app_nil_r.
  - rewrite export_tables_cons. cbn [collect].
    destruct (table_rows fetch_order (fs w) conn t) as [rows|] eqn:Hrows; cbn [mbind option_bind].
    + rewrite (cursor_execute_ok _ _ _ _ Hrows). cbn [pending set_pending].
      match goal with
      | |- context [export_tables _ _ _ ?d ?w1] => specialize (IH d w1)
      end.
      cbn [fs emit set_pending log_sql sql_log] in IH.
      destruct (collect fetch_order (fs w) conn ts _) as [d|].
      * destruct IH as (w' & Hrun & Hfs & Hlog).
        exists w'. rewrite Hrun, Hfs, Hlog. cbn [map].
        repeat split. now rewrite <- app_assoc.
      * destruct IH as (e & w' & n & Hrun & Hfs & He & Hn & Hlog).
        exists e, w', (S n). rewrite Hrun, Hfs, Hlog. cbn [map take length].
        repeat split; [assumption | lia | now rewrite <- app_assoc].
    + destruct (cursor_execute_err _ _ _ Hrows) as (e & He & ->).
      eexists e, _, 0%nat. cbn [fs log_sql sql_log take map length].
      repeat split; [assumption | lia].
Qed.

(** ** Dictionaries *)

Lemma dict_keys_set {V} k (v : V) d :
  dict_keys (dict_set k v d) = if decide (k ∈ dict_keys d) then dict_keys d else dict_keys d ++ [k].
Proof.
  unfold dict_keys. induction d as [|[k' v'] d IH]; cbn.
  - destruct (decide (k ∈ [])) as [H|H]; [now apply elem_of_nil in H | reflexivity].
  - destruct (decide (k' = k)) as [->|Hne]; cbn.
    + destruct (decide (k ∈ k :: map fst d)) as [H|H]; [reflexivity|].
      exfalso. apply H. left.
    + rewrite IH.
      destruct (decide (k ∈ map fst d)) as [H|H];
        destruct (decide (k ∈ k' :: map fst d)) as [H'|H']; try reflexivity.
      * exfalso. apply H'. now right.
      * exfalso. apply elem_of_cons in H' as [->|H']; [now apply Hne | now apply H].
Qed.

Lemma dict_get_set_eq {V} k (v : V) d : dict_get k (dict_set k v d) = Some v.
Proof.
  induction d as [|[k' v'] d IH]; cbn.
  - now destruct (decide (k = k)).
  - destruct (decide (k' = k)) as [->|Hne]; cbn.
    + now destruct (decide (k = k)).
    + now destruct (decide (k' = k)).
Qed.

Lemma dict_get_set_ne {V} k k' (v : V) d :
  k ≠ k' → dict_get k' (dict_set k v d) = dict_get k' d.
Proof.
  intros Hne. induction d as [|[k1 v1] d IH]; cbn.
  - destruct (decide (k = k')); [contradiction | reflexivity].
  - destruct (decide (k1 = k)) as [->|Hne1]; cbn.
    + destruct (decide (k = k')); [contradiction | reflexivity].
    + destruct (decide (k1 = k')); [reflexivity | exact IH].
Qed.

Lemma dict_set_values {V} (P : V → Prop) k v (d : list (pystr * V)) :
  P v → Forall (λ kv, P kv.2) d → Forall (λ kv, P kv.2) (dict_set k v d).
Proof.
  intros Hv Hd. induction Hd as [|[k' v'] d Hkv Hd IH]; cbn.
  - now repeat constructor.
  - destruct (decide (k' = k)); constructor; assumption.
Qed.

(** ** What [collect] returns *)

Lemma collect_keys fsys conn ts data d :
  NoDup (dict_keys data ++ ts) →
  collect fetch_order fsys conn ts data = Some d →
  dict_keys d = dict_keys data ++ ts.
Proof.
  revert data. induction ts as [|t ts IH]; intros data Hnd; cbn.
  - intros [= <-]. now rewrite app_nil_r.
  - destruct (table_rows fetch_order fsys conn t) as [rows|]; cbn; [|discriminate].
    intros Hc. apply IH in Hc.
    + rewrite Hc, dict_keys_set.
      destruct (decide (t ∈ dict_keys data)) as [Hin|_].
      * apply NoDup_app in Hnd as (_ & Hdis & _).
        exfalso. apply (Hdis t Hin). left.
      * now rewrite <- app_assoc.
    + rewrite dict_keys_set.
      destruct (decide (t ∈ dict_keys data)) as [Hin|_].
      * apply NoDup_app in Hnd as (_ & Hdis & _).
        exfalso. apply (Hdis t Hin). left.
      * now rewrite <- app_assoc.
Qed.

Lemma collect_arrays fsys conn ts data d :
  Forall (λ kv, is_array kv.2) data →
  collect fetch_order fsys conn ts data = Some d →
  Forall (λ kv, is_array kv.2) d.
Proof.
  revert data. induction ts as [|t ts IH]; intros data Hd; cbn.
  - now intros [= <-].
  - destruct (table_rows fetch_order fsys conn t) as [rows|]; cbn; [|discriminate].
    apply IH. apply dict_set_values; [|assumption]. now eexists.
Qed.

Lemma collect_get fsys conn ts data d t :
  NoDup ts → t ∈ ts →
  collect fetch_order fsys conn ts data = Some d →
  ∃ rows, table_rows fetch_order fsys conn t = Some rows
          ∧ dict_get t d = Some (PList (map dict_of_row rows)).
Proof.
  revert data. induction ts as [|t' ts IH]; intros data Hnd Hin; cbn.
  - now apply elem_of_nil in Hin.
  - destruct (table_rows fetch_order fsys conn t') as [rows|] eqn:Hrows; cbn; [|discriminate].
    intros Hc. apply NoDup_cons in Hnd as [Hnotin Hnd].
    apply elem_of_cons in Hin as [->|Hin].
    + exists rows. split; [assumption|].
      clear IH Hrows. revert Hc.
      generalize (PList (map dict_of_row rows)) as v. intros v.
      assert (Hget : dict_get t' (dict_set t' v data) = Some v) by apply dict_get_set_eq.
      revert Hget. generalize (dict_set t' v data) as data'. clear data.
      induction ts as [|t2 ts IH2]; intros data' Hget; cbn.
      * now intros [= <-].
      * destruct (table_rows fetch_order fsys conn t2) as [rows2|]; cbn; [|discriminate].
        apply IH2.
        -- intros H. apply Hnotin. now right.
        -- now apply NoDup_cons in Hnd.
        -- rewrite dict_get_set_ne; [assumption|].
           intros ->. apply Hnotin. left.
    + eapply IH; eassumption.
Qed.

End Loop.

(** ** The encoder *)

Lemma pyvalue_nested_ind (P : pyvalue (finite:=finite) → Prop) :
  P PNone → (∀ z, P (PInt z)) → (∀ f, P (PFloat f)) → (∀ s, P (PStr s)) →
  (∀ b, P (PBytes b)) →
  (∀ l, Forall P l → P (PList l)) →
  (∀ d, Forall (λ kv, P kv.2) d → P (PDict d)) →
  ∀ o, P o.
Proof.
  intros HN HI HF HS HB HL HD.
  fix IH 1. intros [| z | f | s | b | l | d].
  - exact HN.
  - apply HI.
  - apply HF.
  - apply HS.
  - apply HB.
  - apply HL.
    exact ((fix go (l : list pyvalue) : Forall P l :=
              match l with
              | [] => @List.Forall_nil _ P
              | x :: l' => @List.Forall_cons _ P x l' (IH x) (go l')
              end) l).
  - apply HD.
    exact ((fix go (d : list (pystr * pyvalue)) : Forall (λ kv, P kv.2) d :=
              match d with
              | [] => @List.Forall_nil _ _
              | kv :: d' => @List.Forall_cons _ (λ kv, P kv.2) kv d' (IH kv.2) (go d')
              end) d).
Qed.

Definition encode_member (indent : nat) (default : option (list N → pystr)) (lvl : nat)
    (kv : pystr * pyvalue (finite:=finite)) : option pystr :=
  c ← iterencode float_repr indent default (S lvl) kv.2;
  Some (encode_basestring_ascii kv.1 ++ lit ": " ++ c).

Lemma iterencode_list indent default lvl x l :
  iterencode float_repr indent default lvl (PList (x :: l))
  = items ← mapM (iterencode float_repr indent default (S lvl)) (x :: l);
    Some (render_members indent lvl (lit "[") (lit "]") items).
Proof. reflexivity. Qed.

Lemma iterencode_dict indent default lvl kv d :
  iterencode float_repr indent default lvl (PDict (kv :: d))
  = items ← mapM (encode_member indent default lvl) (kv :: d);
    Some (render_members indent lvl (lit "{") (lit "}") items).
Proof. reflexivity. Qed.

Lemma iterencode_total indent f o :
  ∀ lvl, is_Some (iterencode float_repr indent (Some f) lvl o).
Proof.
  induction o as [| z | x | s | b | l IH | d IH] using pyvalue_nested_ind; intros lvl;
    try (eexists; reflexivity).
  - destruct l as [|x l]; [eexists; reflexivity|].
    rewrite iterencode_list.
    assert (H : is_Some (mapM (iterencode float_repr indent (Some f) (S lvl)) (x :: l))).
    { apply mapM_is_Some_2. eapply Forall_impl; [exact IH|].
      intros y Hy. apply Hy. }
    destruct H as [items ->]. eexists; reflexivity.
  - destruct d as [|kv d]; [eexists; reflexivity|].
    rewrite iterencode_dict.
    assert (H : is_Some (mapM (encode_member indent (Some f) lvl) (kv :: d))).
    { apply mapM_is_Some_2. eapply Forall_impl; [exact IH|].
      intros [k v] Hv. unfold encode_member, compose. cbn [fst snd] in *.
      destruct (Hv (S lvl)) as [c ->]. eexists; reflexivity. }
    destruct H as [items ->]. eexists; reflexivity.
Qed.

Lemma mapM_Some_map {A B C} (f : B → option C) (h : A → B) (g : A → C) l :
  (∀ x, f (h x) = Some (g x)) → mapM f (map h l) = Some (map g l).
Proof.
  intros H. induction l as [|x l IH]; [reflexivity|].
  cbn [mapM map]. rewrite H, IH. reflexivity.
Qed.

Lemma dict_set_convert k v (d : list (pystr * sqlvalue (finite:=finite))) :
  dict_set k (py_of_sql v) (map convert_field d) = map convert_field (dict_set k v d).
Proof.
  induction d as [|[k' v'] d IH]; [reflexivity|].
  cbn [map dict_set convert_field fst snd].
  destruct (decide (k' = k)); [reflexivity|].
  cbn [map convert_field fst snd]. now rewrite IH.
Qed.

Lemma dict_of_pairs_convert (ps : list (pystr * sqlvalue (finite:=finite))) :
  dict_of_pairs (map convert_field ps) = map convert_field (dict_of_pairs ps).
Proof.
  unfold dict_of_pairs.
  change (@nil (pystr * pyvalue (finite:=finite))) with (map (convert_field (finite:=finite)) []).
  generalize (@nil (pystr * sqlvalue (finite:=finite))) as d.
  induction ps as [|[k v] ps IH]; intros d; [reflexivity|].
  cbn [map fold_left convert_field fst snd].
  rewrite dict_set_convert. apply IH.
Qed.

Lemma combine_convert (ks : list pystr) (vs : list (sqlvalue (finite:=finite))) :
  combine ks (map py_of_sql vs) = map convert_field (combine ks vs).
Proof.
  revert vs. induction ks as [|k ks IH]; intros [|v vs]; try reflexivity.
  cbn [combine map]. now rewrite IH.
Qed.

Lemma dict_of_row_fields (r : Row (finite:=finite)) :
  dict_of_row r = PDict (map convert_field (row_fields r)).
Proof.
  unfold dict_of_row, row_fields.
  now rewrite combine_convert, dict_of_pairs_convert.
Qed.

(** The encoder on the three levels of the document *)

Lemma iterencode_field indent lvl (v : sqlvalue (finite:=finite)) :
  iterencode float_repr indent (Some bytes_repr) lvl (py_of_sql v)
  = Some (field_token float_repr v).
Proof. destruct v; reflexivity. Qed.

Lemma mapM_encode_fields lvl (l : list (pystr * sqlvalue (finite:=finite))) :
  mapM (encode_member 2 (Some bytes_repr) lvl) (map convert_field l)
  = Some (map (pretty_field float_repr) l).
Proof.
  induction l as [|[k v] l IH]; [reflexivity|].
  cbn [map mapM]. rewrite IH. unfold encode_member, convert_field. cbn [fst snd].
  now rewrite iterencode_field.
Qed.

Lemma iterencode_row (r : Row (finite:=finite)) :
  iterencode float_repr 2 (Some bytes_repr) 2 (dict_of_row r)
  = Some (pretty_row float_repr (row_fields r)).
Proof.
  rewrite dict_of_row_fields.
  destruct (row_fields r) as [|kv fields]; [reflexivity|].
  cbn [map]. rewrite iterencode_dict.
  change (convert_field kv :: map convert_field fields)
    with (map convert_field (kv :: fields)).
  rewrite mapM_encode_fields. reflexivity.
Qed.

Lemma iterencode_table (rows : list (Row (finite:=finite))) :
  iterencode float_repr 2 (Some bytes_repr) 1 (PList (map dict_of_row rows))
  = Some (pretty_table float_repr (map row_fields rows)).
Proof.
  destruct rows as [|r rows]; [reflexivity|].
  cbn [map]. rewrite iterencode_list.
  change (dict_of_row r :: map dict_of_row rows) with (map dict_of_row (r :: rows)).
  rewrite (mapM_Some_map _ _ (λ r, pretty_row float_repr (row_fields r)))
    by apply iterencode_row.
  rewrite <- (map_map row_fields (pretty_row float_repr)). reflexivity.
Qed.

Lemma json_dumps_entries (trs : list (pystr * list (Row (finite:=finite)))) :
  json_dumps float_repr (PDict (map entry trs))
  = Some (pretty_document float_repr (map typed_entry trs)).
Proof.
  unfold json_dumps.
  destruct trs as [|tr trs]; [reflexivity|].
  cbn [map]. rewrite iterencode_dict.
  change (entry tr :: map entry trs) with (map entry (tr :: trs)).
  rewrite (mapM_Some_map _ _
             (λ tr, encode_basestring_ascii tr.1 ++ lit ": "
                    ++ pretty_table float_repr (map row_fields tr.2))).
  2:{ intros [t rows]. unfold encode_member, entry. cbn [fst snd].
      now rewrite iterencode_table. }
  unfold pretty_document. cbn [map mbind option_bind]. rewrite map_map. reflexivity.
Qed.

(** ** The values of a row in the output *)


(** [C10] A blob is written as the string literal of [str(b)], which is
    the [repr] of the bytes object: the letter [b], a quote, the escaped
    bytes, the same quote.  Read back, the field is that rendering; it is
    never the token of the blob's content decoded to text, whatever the
    decoding, as long as it yields at most one character per byte. *)
Theorem C10_blob_is_written_as_its_repr (b : list N) indent lvl :
  iterencode float_repr indent (Some bytes_repr) lvl (py_of_sql (SBlob b))
  = Some (encode_basestring_ascii (bytes_repr b))
  ∧ loads_string (encode_basestring_ascii (bytes_repr b)) = Some (bytes_repr b)
  ∧ (∃ q, (q = 39 ∨ q = 34)
          ∧ bytes_repr b = [98; q] ++ concat (map (bytes_repr_char q) b) ++ [q])
  ∧ ∀ s, valid_text s → (length s <= length b)%nat →
         iterencode float_repr indent (Some bytes_repr) lvl (PStr s)
         ≠ iterencode float_repr indent (Some bytes_repr) lvl (py_of_sql (SBlob b)).
Proof.
  assert (Hback : loads_string (encode_basestring_ascii (bytes_repr b)) = Some (bytes_repr b))
    by apply loads_string_encode, printable_valid_text, bytes_repr_printable.
  split; [reflexivity|]. split; [exact Hback|]. split.
  - exists (bytes_quote b). split; [apply bytes_quote_cases | reflexivity].
  - intros s Hs Hlen Heq. cbn [iterencode py_of_sql] in Heq.
    apply (f_equal (λ o, o ≫= loads_string)) in Heq.
    cbn [mbind option_bind] in Heq.
    rewrite Hback, (loads_string_encode s Hs) in Heq. injection Heq as ->.
    pose proof (bytes_repr_length b). lia.
Qed.

(** ** The run *)

Section Run.

Variable fetch_order :
  pystr → list (list (sqlvalue (finite:=finite))) → list (list (sqlvalue (finite:=finite))).

Lemma tables_NoDup : NoDup tables.
Proof. apply (bool_decide_unpack _). vm_compute. exact I. Qed.

Lemma export_to_json_phases (w : world (finite:=finite)) :
  export_to_json float_repr fetch_order w
  = match read_phase fetch_order w with
    | (Return data, w1) => write_phase float_repr data w1
    | (Raise e, w1) => (Raise e, w1)
    end.
Proof.
  unfold export_to_json, read_phase, write_phase, conn_close, print, mbind, M_bind.
  destruct (sqlite3_connect db_path _) as [[conn|e] w1]; [|reflexivity].
  destruct (export_tables fetch_order conn tables [] w1) as [[data|e] w2]; reflexivity.
Qed.

Lemma read_phase_run (w : world (finite:=finite)) :
  read_phase fetch_order w
  = match fs w !! db_path with
    | Some FDir =>
        (Raise (OperationalError (lit "unable to open database file")), emit start_line w)
    | _ =>
        export_tables fetch_order db_path tables []
          (set_fs (connected (fs w)) (emit start_line w))
    end.
Proof.
  unfold read_phase, print, mbind, M_bind, sqlite3_connect, connected, start_line.
  cbn [fs emit].
  destruct (fs w !! db_path) as [[db|c|]|]; try reflexivity.
  all: destruct w; reflexivity.
Qed.

Lemma connected_other (fsys : gmap pystr (file (finite:=finite))) p :
  p ≠ db_path → connected fsys !! p = fsys !! p.
Proof.
  intros Hp. unfold connected.
  destruct (fsys !! db_path); [reflexivity|].
  now rewrite lookup_insert_ne.
Qed.

Lemma out_path_ne_db_path : out_path ≠ db_path.
Proof. discriminate. Qed.

Lemma collect_absent fsys t ts data :
  fsys !! db_path = None →
  collect fetch_order (connected fsys) db_path (t :: ts) data = None.
Proof.
  intros Hf. unfold connected. rewrite Hf. cbn [collect]. unfold table_rows.
  rewrite lookup_insert_eq. cbn. now rewrite lookup_empty.
Qed.

Lemma read_phase_Return (w : world (finite:=finite)) data w1 :
  read_phase fetch_order w = (Return data, w1) →
  collect fetch_order (fs w) db_path tables [] = Some data
  ∧ fs w1 = fs w
  ∧ sql_log w1 = sql_log w ++ map select_all tables.
Proof.
  rewrite read_phase_run.
  pose proof (export_tables_run fetch_order db_path tables []
                (set_fs (connected (fs w)) (emit start_line w))) as Hrun.
  cbn [fs set_fs emit sql_log] in Hrun.
  destruct (fs w !! db_path) as [f|] eqn:Hf.
  - assert (Hc : connected (fs w) = fs w) by (unfold connected; now rewrite Hf).
    rewrite Hc in Hrun |- *.
    destruct f; try discriminate;
      (destruct (collect fetch_order (fs w) db_path tables []) as [d|];
       [ destruct Hrun as (w' & -> & Hfs & Hlog); intros [= <- <-]; auto
       | destruct Hrun as (e & w' & n & -> & _); discriminate ]).
  - unfold tables in Hrun at 1. rewrite collect_absent in Hrun by assumption.
    destruct Hrun as (e & w' & n & -> & _). discriminate.
Qed.

Lemma read_phase_Raise (w : world (finite:=finite)) e w1 :
  read_phase fetch_order w = (Raise e, w1) →
  query_error e
  ∧ (fs w1 = fs w ∨ fs w1 = connected (fs w))
  ∧ ∃ n, sql_log w1 = sql_log w ++ map select_all (take n tables).
Proof.
  rewrite read_phase_run.
  pose proof (export_tables_run fetch_order db_path tables []
                (set_fs (connected (fs w)) (emit start_line w))) as Hrun.
  cbn [fs set_fs emit sql_log] in Hrun.
  assert (Hgen : export_tables fetch_order db_path tables []
                   (set_fs (connected (fs w)) (emit start_line w)) = (Raise e, w1) →
                 query_error e ∧ (fs w1 = fs w ∨ fs w1 = connected (fs w))
                 ∧ ∃ n, sql_log w1 = sql_log w ++ map select_all (take n tables)).
  { destruct (collect fetch_order (connected (fs w)) db_path tables []) as [d|].
    - destruct Hrun as (w' & -> & _). discriminate.
    - destruct Hrun as (e' & w' & n & -> & Hfs & He & _ & Hlog). intros [= <- <-].
      repeat split; [assumption | now right | now exists (S n)]. }
  destruct (fs w !! db_path) as [[db|c|]|]; try exact Hgen.
  intros [= <- <-]. repeat split; [now left | exists 0%nat; cbn; now rewrite app_nil_r].
Qed.

Lemma write_phase_run data (w : world (finite:=finite)) :
  write_phase float_repr data w
  = match fs w !! out_path with
    | Some FDir => (Raise (IsADirectoryError out_path), w)
    | _ =>
        match json_dumps float_repr (PDict data) with
        | Some text =>
            (Return (),
             emit ([127881] ++ lit " Export complete! norms_data.json created")
               (set_fs (<[out_path := FText text]> (fs w)) w))
        | None => (Raise (TypeError (lit "Object is not JSON serializable")),
                   set_fs (<[out_path := FText []]> (fs w)) w)
        end
    end.
Proof.
  unfold write_phase, open_w, json_dump, conn_close, print, mbind, M_bind, mret, M_ret.
  destruct (fs w !! out_path) as [[db|c|]|]; try reflexivity;
    (destruct (json_dumps float_repr (PDict data)); [|reflexivity];
     cbn [fs set_fs emit stdout sql_log pending]; now rewrite insert_insert_eq).
Qed.

Lemma json_dumps_total (o : pyvalue (finite:=finite)) : is_Some (json_dumps float_repr o).
Proof. apply iterencode_total. Qed.

(** [C1] A run that completes has built an export document with exactly
    the five table names as its keys, once each and in the order of the
    list, every one of them mapped to an array, and it is this document
    whose serialization the output file holds. *)
Theorem C1_document_has_exactly_the_five_tables (w w' : world (finite:=finite)) :
  export_to_json float_repr fetch_order w = (Return (), w') →
  ∃ data w1 text,
    read_phase fetch_order w = (Return data, w1)
    ∧ json_dumps float_repr (PDict data) = Some text
    ∧ fs w' !! out_path = Some (FText text)
    ∧ dict_keys data = tables
    ∧ NoDup (dict_keys data)
    ∧ Forall (λ kv, is_array kv.2) data.
Proof.
  rewrite export_to_json_phases.
  destruct (read_phase fetch_order w) as [[data|e] w1] eqn:Hread; [|discriminate].
  rewrite write_phase_run.
  destruct (read_phase_Return _ _ _ Hread) as (Hc & Hfs & Hlog).
  destruct (json_dumps_total (PDict data)) as [text Htext]. rewrite Htext.
  assert (Hkeys : dict_keys data = tables).
  { apply (collect_keys fetch_order (fs w) db_path tables [] data); [|assumption].
    cbn [dict_keys map app]. apply tables_NoDup. }
  intros Hw. exists data, w1, text.
  repeat split; try assumption.
  - destruct (fs w1 !! out_path) as [[db|c|]|]; try discriminate;
      injection Hw as <-; cbn [fs emit set_fs]; apply lookup_insert_eq.
  - rewrite Hkeys. apply tables_NoDup.
  - eapply collect_arrays; [|exact Hc]. constructor.
Qed.

Lemma table_rows_Some fsys conn t rows :
  table_rows fetch_order fsys conn t = Some rows →
  ∃ f db tb, fsys !! conn = Some f
             ∧ read_database f = Some db
             ∧ db !! t = Some tb
             ∧ rows = map (Build_Row (columns tb)) (fetch_order t (records tb)).
Proof.
  unfold table_rows.
  destruct (fsys !! conn) as [f|]; [|discriminate]. cbn [mbind option_bind].
  destruct (read_database f) as [db|] eqn:Hdb; [|discriminate]. cbn [mbind option_bind].
  destruct (db !! t) as [tb|] eqn:Htb; [|discriminate]. cbn [mbind option_bind].
  intros [= <-]. exists f, db, tb. auto.
Qed.

(** [C2] In a run that completes, the array of every table has as many
    elements as the engine handed out rows for that table when it was
    read. *)
Theorem C2_array_length_is_rows_fetched (w w' : world (finite:=finite)) :
  export_to_json float_repr fetch_order w = (Return (), w') →
  ∃ data w1 f db,
    read_phase fetch_order w = (Return data, w1)
    ∧ fs w !! db_path = Some f
    ∧ read_database f = Some db
    ∧ ∀ t, t ∈ tables →
        ∃ tb l, db !! t = Some tb
                ∧ dict_get t data = Some (PList l)
                ∧ length l = length (fetch_order t (records tb)).
Proof.
  rewrite export_to_json_phases.
  destruct (read_phase fetch_order w) as [[data|e] w1] eqn:Hread; [|discriminate].
  intros _. destruct (read_phase_Return _ _ _ Hread) as (Hc & _ & _).
  assert (Hfirst : lit "norms" ∈ tables) by left.
  destruct (collect_get fetch_order _ _ _ _ _ _ tables_NoDup Hfirst Hc) as (rows0 & Hrows0 & _).
  apply table_rows_Some in Hrows0 as (f & db & _ & Hf & Hdb & _).
  exists data, w1, f, db.
  split; [reflexivity|]. split; [assumption|]. split; [assumption|].
  intros t Ht.
  destruct (collect_get fetch_order _ _ _ _ _ _ tables_NoDup Ht Hc) as (rows & Hrows & Hget).
  apply table_rows_Some in Hrows as (f' & db' & tb & Hf' & Hdb' & Htb & ->).
  rewrite Hf in Hf'. injection Hf' as <-.
  rewrite Hdb in Hdb'. injection Hdb' as <-.
  exists tb, (map dict_of_row (map (Build_Row (columns tb)) (fetch_order t (records tb)))).
  split; [assumption|]. split; [assumption|].
  now rewrite !length_map.
Qed.

Lemma collect_None fsys conn ts data t :
  t ∈ ts → table_rows fetch_order fsys conn t = None →
  collect fetch_order fsys conn ts data = None.
Proof.
  intros Hin Hnone. revert data.
  induction ts as [|t' ts IH]; intros data; [now apply elem_of_nil in Hin|].
  cbn [collect].
  destruct (table_rows fetch_order fsys conn t') as [rows|] eqn:Hrows; [|reflexivity].
  cbn. apply elem_of_cons in Hin as [->|Hin]; [congruence | now apply IH].
Qed.

(** [C4] When the read phase cannot finish --- for one of the five tables
    the connection yields no rows because the database file is absent, is
    no database, or lacks the table --- the run ends with that error and
    the output path holds what it held before, a file or nothing. *)
Theorem C4_failed_read_leaves_output_untouched (w : world (finite:=finite)) t :
  t ∈ tables →
  table_rows fetch_order (connected (fs w)) db_path t = None →
  ∃ e w', export_to_json float_repr fetch_order w = (Raise e, w')
          ∧ read_phase fetch_order w = (Raise e, w')
          ∧ query_error e
          ∧ fs w' !! out_path = fs w !! out_path.
Proof.
  intros Ht Hnone.
  assert (Hread : ∃ e w', read_phase fetch_order w = (Raise e, w')
                          ∧ query_error e ∧ fs w' !! out_path = fs w !! out_path).
  { rewrite read_phase_run.
    pose proof (export_tables_run fetch_order db_path tables []
                  (set_fs (connected (fs w)) (emit start_line w))) as Hrun.
    cbn [fs set_fs emit sql_log] in Hrun.
    rewrite (collect_None _ _ _ _ _ Ht Hnone) in Hrun.
    destruct Hrun as (e & w' & n & Hrun & Hfs & He & _).
    destruct (fs w !! db_path) as [[db|c|]|] eqn:Hf;
      try (exists e, w'; rewrite Hfs, (connected_other _ _ out_path_ne_db_path); now auto).
    eexists _, _. repeat split. }
  destruct Hread as (e & w' & Hread & He & Hout).
  exists e, w'. rewrite export_to_json_phases, Hread. auto.
Qed.

Lemma cursor_execute_no_table conn t f db (w : world (finite:=finite)) :
  fs w !! conn = Some f → read_database f = Some db → db !! t = None →
  cursor_execute fetch_order conn (select_all t) w
  = (Raise (OperationalError (lit "no such table: " ++ t)), log_sql (select_all t) w).
Proof.
  intros Hf Hdb Ht. unfold cursor_execute, select_all. cbn [fs log_sql].
  now rewrite Hf, Hdb, strip_prefix_app, Ht.
Qed.

Lemma cursor_execute_not_a_database conn t c cs (w : world (finite:=finite)) :
  fs w !! conn = Some (FText (c :: cs)) →
  cursor_execute fetch_order conn (select_all t) w
  = (Raise (DatabaseError (lit "file is not a database")), log_sql (select_all t) w).
Proof.
  intros Hf. unfold cursor_execute, select_all. cbn [fs log_sql].
  now rewrite Hf.
Qed.

Lemma absent_database_run (w : world (finite:=finite)) :
  fs w !! db_path = None →
  ∃ w1 w',
    sqlite3_connect db_path (emit start_line w) = (Return db_path, w1)
    ∧ export_to_json float_repr fetch_order w
      = (Raise (OperationalError (lit "no such table: norms")), w')
    ∧ sql_log w' = sql_log w ++ [select_all (lit "norms")]
    ∧ stdout w' = stdout w ++ [start_line]
    ∧ fs w' = <[db_path := FText []]> (fs w).
Proof.
  intros Hf.
  eexists _, _. split.
  { unfold sqlite3_connect. cbn [fs emit]. rewrite Hf. reflexivity. }
  rewrite export_to_json_phases, read_phase_run, Hf.
  unfold tables. rewrite export_tables_cons.
  rewrite (cursor_execute_no_table _ _ (FText []) ∅);
    [| cbn [fs set_fs]; unfold connected; rewrite Hf; apply lookup_insert_eq
     | reflexivity | apply lookup_empty ].
  split; [reflexivity|].
  cbn [fs sql_log stdout set_fs log_sql emit]. unfold connected. rewrite Hf.
  repeat split.
Qed.

(** [C9] With no database file in the working directory the open succeeds
    and leaves a new zero-length file, which SQLite reads as a database
    without tables; the run then fails at the query of the first table, so
    the directory has changed although nothing was exported. *)
Theorem C9_absent_database_is_created_then_first_query_fails (w : world (finite:=finite)) :
  fs w !! db_path = None →
  ∃ w1 w',
    sqlite3_connect db_path (emit start_line w) = (Return db_path, w1)
    ∧ fs w1 = <[db_path := FText []]> (fs w)
    ∧ read_database (finite:=finite) (FText []) = Some ∅
    ∧ export_to_json float_repr fetch_order w
      = (Raise (OperationalError (lit "no such table: norms")), w')
    ∧ sql_log w' = sql_log w ++ [select_all (lit "norms")]
    ∧ fs w' = <[db_path := FText []]> (fs w)
    ∧ fs w' ≠ fs w
    ∧ fs w' !! out_path = fs w !! out_path.
Proof.
  intros Hf.
  eexists _, _. split.
  { unfold sqlite3_connect. cbn [fs emit]. rewrite Hf. reflexivity. }
  split; [reflexivity|]. split; [reflexivity|].
  rewrite export_to_json_phases, read_phase_run, Hf.
  unfold tables. rewrite export_tables_cons.
  rewrite (cursor_execute_no_table _ _ (FText []) ∅);
    [| cbn [fs set_fs]; unfold connected; rewrite Hf; apply lookup_insert_eq
     | reflexivity | apply lookup_empty ].
  split; [reflexivity|].
  cbn [fs sql_log set_fs log_sql emit]. unfold connected. rewrite Hf.
  repeat split.
  - intros Heq. apply (f_equal (λ m, m !! db_path)) in Heq.
    rewrite lookup_insert_eq, Hf in Heq. discriminate.
  - now rewrite lookup_insert_ne by discriminate.
Qed.

(** [C3], as the code has it.  When the database file is absent, or is a
    file that holds no database, the open succeeds; the run fails at the
    query of the first table with the error of that query, which ends the
    run after the start notice, with the one statement issued and the
    output path untouched.  The open itself fails, before any statement is
    issued, when the path is a directory. *)
Theorem C3_unusable_database_fails_at_first_query (w : world (finite:=finite)) :
  (fs w !! db_path = None ∨ ∃ c cs, fs w !! db_path = Some (FText (c :: cs))) →
  (∃ w1, sqlite3_connect db_path (emit start_line w) = (Return db_path, w1))
  ∧ ∃ e w',
      export_to_json float_repr fetch_order w = (Raise e, w')
      ∧ (e = OperationalError (lit "no such table: norms")
         ∨ e = DatabaseError (lit "file is not a database"))
      ∧ sql_log w' = sql_log w ++ [select_all (lit "norms")]
      ∧ stdout w' = stdout w ++ [start_line]
      ∧ fs w' !! out_path = fs w !! out_path.
Proof.
  intros [Hf | (c & cs & Hf)].
  - destruct (absent_database_run w Hf) as (w1 & w' & Hconn & Hrun & Hlog & Hstd & Hfs).
    split; [now exists w1|].
    eexists _, w'. repeat split; try eassumption; [now left|].
    rewrite Hfs. now rewrite lookup_insert_ne by discriminate.
  - split.
    { eexists. unfold sqlite3_connect. cbn [fs emit]. rewrite Hf. reflexivity. }
    rewrite export_to_json_phases, read_phase_run, Hf.
    unfold tables. rewrite export_tables_cons.
    rewrite (cursor_execute_not_a_database _ _ c cs);
      [| cbn [fs set_fs]; unfold connected; now rewrite Hf ].
    eexists _, _. split; [reflexivity|].
    cbn [fs sql_log stdout set_fs log_sql emit]. unfold connected. rewrite Hf.
    repeat split. now right.
Qed.

(** ** The document in full *)

Lemma dict_set_fresh {V} k (v : V) d : k ∉ dict_keys d → dict_set k v d = d ++ [(k, v)].
Proof.
  unfold dict_keys. induction d as [|[k' v'] d IH]; intros Hk; [reflexivity|].
  cbn [dict_set app]. cbn [map fst] in Hk.
  destruct (decide (k' = k)) as [->|Hne].
  - exfalso. apply Hk. left.
  - rewrite IH; [reflexivity|]. intros Hin. apply Hk. now right.
Qed.

Lemma collect_fetch_all fsys conn ts data :
  NoDup (dict_keys data ++ ts) →
  collect fetch_order fsys conn ts data
  = (trs ← fetch_all fetch_order fsys conn ts; Some (data ++ map entry trs)).
Proof.
  unfold fetch_all. revert data. induction ts as [|t ts IH]; intros data Hnd.
  - cbn. now rewrite app_nil_r.
  - cbn [collect mapM].
    destruct (table_rows fetch_order fsys conn t) as [rows|]; [|reflexivity].
    cbn [mbind option_bind].
    assert (Hfresh : t ∉ dict_keys data).
    { intros Hin. apply NoDup_app in Hnd as (_ & Hdis & _). apply (Hdis t Hin). left. }
    rewrite (dict_set_fresh _ _ _ Hfresh), IH.
    + destruct (mapM _ ts) as [trs|]; [|reflexivity].
      cbn [mbind option_bind mret option_ret map entry fst snd].
      now rewrite <- app_assoc.
    + unfold dict_keys. rewrite map_app, <- app_assoc. exact Hnd.
Qed.

Lemma fetch_all_keys fsys conn ts trs :
  fetch_all fetch_order fsys conn ts = Some trs → map fst trs = ts.
Proof.
  unfold fetch_all. revert trs. induction ts as [|t ts IH]; intros trs.
  - now intros [= <-].
  - cbn [mapM].
    destruct (table_rows fetch_order fsys conn t) as [rows|]; [|discriminate].
    cbn [mbind option_bind].
    destruct (mapM _ ts) as [trs'|]; [|discriminate].
    intros [= <-]. cbn [map fst]. now rewrite (IH trs').
Qed.

Lemma write_phase_sql_log data (w : world (finite:=finite)) r w' :
  write_phase float_repr data w = (r, w') → sql_log w' = sql_log w.
Proof.
  rewrite write_phase_run.
  destruct (fs w !! out_path) as [[db|c|]|];
    try (destruct (json_dumps float_repr (PDict data)));
    now intros [= <- <-].
Qed.

(** What a completed run has done. *)
Lemma run_Return (w w' : world (finite:=finite)) :
  export_to_json float_repr fetch_order w = (Return (), w') →
  ∃ trs w1,
    fetch_all fetch_order (fs w) db_path tables = Some trs
    ∧ read_phase fetch_order w = (Return (map entry trs), w1)
    ∧ json_dumps float_repr (PDict (map entry trs))
      = Some (pretty_document float_repr (map typed_entry trs))
    ∧ fs w' = <[out_path := FText (pretty_document float_repr (map typed_entry trs))]> (fs w)
    ∧ sql_log w' = sql_log w ++ map select_all tables.
Proof.
  rewrite export_to_json_phases.
  destruct (read_phase fetch_order w) as [[data|e] w1] eqn:Hread; [|discriminate].
  destruct (read_phase_Return _ _ _ Hread) as (Hc & Hfs & Hlog).
  rewrite collect_fetch_all in Hc by apply tables_NoDup.
  destruct (fetch_all fetch_order (fs w) db_path tables) as [trs|]; [|discriminate].
  injection Hc as <-. cbn [app].
  intros Hw. pose proof (write_phase_sql_log _ _ _ _ Hw) as Hlog'.
  rewrite write_phase_run, json_dumps_entries in Hw.
  exists trs, w1. split; [reflexivity|]. split; [reflexivity|].
  split; [apply json_dumps_entries|].
  split; [|congruence].
  destruct (fs w1 !! out_path) as [[db|c|]|]; try discriminate;
    injection Hw as <-; cbn [fs emit set_fs]; now rewrite Hfs.
Qed.

Lemma fetch_all_database fsys conn t ts trs :
  fetch_all fetch_order fsys conn (t :: ts) = Some trs →
  ∃ f db, fsys !! conn = Some f ∧ read_database f = Some db.
Proof.
  unfold fetch_all. cbn [mapM].
  destruct (table_rows fetch_order fsys conn t) as [rows|] eqn:Hrows; [|discriminate].
  intros _. apply table_rows_Some in Hrows as (f & db & _ & Hf & Hdb & _).
  now exists f, db.
Qed.

(** When a run completes. *)
Lemma run_completes (w : world (finite:=finite)) trs :
  fetch_all fetch_order (fs w) db_path tables = Some trs →
  fs w !! out_path ≠ Some FDir →
  ∃ w', export_to_json float_repr fetch_order w = (Return (), w')
        ∧ fs w' = <[out_path := FText (pretty_document float_repr (map typed_entry trs))]> (fs w).
Proof.
  intros Hfetch Hout.
  rewrite export_to_json_phases, read_phase_run.
  pose proof (export_tables_run fetch_order db_path tables []
                (set_fs (connected (fs w)) (emit start_line w))) as Hrun.
  cbn [fs set_fs emit sql_log] in Hrun.
  destruct (fetch_all_database _ _ _ _ _ Hfetch) as (f & db & Hf & Hdb).
  assert (Hc : connected (fs w) = fs w) by (unfold connected; now rewrite Hf).
  rewrite Hc in Hrun |- *.
  rewrite collect_fetch_all, Hfetch in Hrun by apply tables_NoDup.
  cbn [mbind option_bind app] in Hrun.
  destruct Hrun as (w1 & Hrun & Hfs & _).
  assert (Hw : ∃ w', write_phase float_repr (map entry trs) w1 = (Return (), w')
                     ∧ fs w' = <[out_path := FText (pretty_document float_repr
                                                      (map typed_entry trs))]> (fs w)).
  { rewrite write_phase_run, json_dumps_entries, Hfs.
    destruct (fs w !! out_path) as [[db'|c|]|]; try contradiction;
      (eexists; split; [reflexivity|]; cbn [fs emit set_fs]; reflexivity). }
  rewrite Hf. destruct f as [db'|c|]; try discriminate; rewrite Hrun; exact Hw.
Qed.

(** [C7] The statements reach the engine one table at a time in the order
    of the list, a run that ends early having issued a prefix of them; and
    in a run that completes, the keys of the document, and with them the
    top-level keys of the text written, stand in that same order. *)
Theorem C7_tables_queried_and_keyed_in_list_order (w : world (finite:=finite)) r w' :
  export_to_json float_repr fetch_order w = (r, w') →
  (∃ n, sql_log w' = sql_log w ++ map select_all (take n tables))
  ∧ (r = Return () →
     sql_log w' = sql_log w ++ map select_all tables
     ∧ ∃ data w1 doc,
         read_phase fetch_order w = (Return data, w1)
         ∧ dict_keys data = tables
         ∧ map fst doc = tables
         ∧ fs w' !! out_path = Some (FText (pretty_document float_repr doc))).
Proof.
  intros Hrun. split.
  - rewrite export_to_json_phases in Hrun.
    destruct (read_phase fetch_order w) as [[data|e] w1] eqn:Hread.
    + destruct (read_phase_Return _ _ _ Hread) as (_ & _ & Hlog).
      apply write_phase_sql_log in Hrun.
      exists (length tables). rewrite firstn_all. congruence.
    + injection Hrun as <- <-.
      now destruct (read_phase_Raise _ _ _ Hread) as (_ & _ & Hn).
  - intros ->. destruct (run_Return _ _ Hrun) as (trs & w1 & Hfetch & Hread & _ & Hfs & Hlog).
    split; [assumption|].
    exists (map entry trs), w1, (map typed_entry trs).
    split; [assumption|].
    apply fetch_all_keys in Hfetch.
    split; [|split].
    + unfold dict_keys. rewrite map_map. exact Hfetch.
    + rewrite map_map. exact Hfetch.
    + rewrite Hfs. apply lookup_insert_eq.
Qed.


End Run.

(** ** Two runs *)

Section Rerun.

Variables fetch_order1 fetch_order2 :
  pystr → list (list (sqlvalue (finite:=finite))) → list (list (sqlvalue (finite:=finite))).

Lemma table_rows_ext (fsys1 fsys2 : gmap pystr (file (finite:=finite))) conn t :
  fsys1 !! conn = fsys2 !! conn →
  (∀ f db tb, fsys1 !! conn = Some f → read_database f = Some db → db !! t = Some tb →
              fetch_order1 t (records tb) = fetch_order2 t (records tb)) →
  table_rows fetch_order1 fsys1 conn t = table_rows fetch_order2 fsys2 conn t.
Proof.
  intros Hfs Hord. unfold table_rows. rewrite <- Hfs.
  destruct (fsys1 !! conn) as [f|]; [|reflexivity]. cbn [mbind option_bind].
  destruct (read_database f) as [db|] eqn:Hdb; [|reflexivity]. cbn [mbind option_bind].
  destruct (db !! t) as [tb|] eqn:Htb; [|reflexivity]. cbn [mbind option_bind].
  now rewrite (Hord f db tb).
Qed.

Lemma fetch_all_ext (fsys1 fsys2 : gmap pystr (file (finite:=finite))) conn ts :
  fsys1 !! conn = fsys2 !! conn →
  (∀ f db t tb, fsys1 !! conn = Some f → read_database f = Some db → t ∈ ts →
                db !! t = Some tb →
                fetch_order1 t (records tb) = fetch_order2 t (records tb)) →
  fetch_all fetch_order1 fsys1 conn ts = fetch_all fetch_order2 fsys2 conn ts.
Proof.
  intros Hfs Hord. unfold fetch_all.
  induction ts as [|t ts IH]; [reflexivity|].
  cbn [mapM]. rewrite IH.
  - rewrite (table_rows_ext fsys1 fsys2 conn t Hfs); [reflexivity|].
    intros f db tb Hf Hdb Htb. apply (Hord f db t tb Hf Hdb); [left | exact Htb].
  - intros f db t' tb Hf Hdb Hin Htb. apply (Hord f db t' tb Hf Hdb); [now right | exact Htb].
Qed.

(** [C6] Run the export, and run it again on what the first run left
    behind.  If the engine hands out the records of each of the five tables
    in the same order both times, the second run completes too, the
    database file is the one the first run read, and the output file after
    the second run is byte for byte the file the first run wrote; indeed
    the whole working directory is unchanged by the second run. *)
Theorem C6_rerun_writes_the_same_bytes (w w1 : world (finite:=finite)) :
  (∀ f db t tb, fs w !! db_path = Some f → read_database f = Some db → t ∈ tables →
                db !! t = Some tb →
                fetch_order1 t (records tb) = fetch_order2 t (records tb)) →
  export_to_json float_repr fetch_order1 w = (Return (), w1) →
  ∃ w2, export_to_json float_repr fetch_order2 w1 = (Return (), w2)
        ∧ fs w1 !! db_path = fs w !! db_path
        ∧ fs w2 !! out_path = fs w1 !! out_path
        ∧ fs w2 = fs w1.
Proof.
  intros Hord Hrun.
  destruct (run_Return _ _ _ Hrun) as (trs & w0 & Hfetch & _ & _ & Hfs & _).
  assert (Hdb : fs w1 !! db_path = fs w !! db_path).
  { rewrite Hfs. apply lookup_insert_ne. discriminate. }
  assert (Hfetch2 : fetch_all fetch_order2 (fs w1) db_path tables = Some trs).
  { rewrite <- Hfetch. symmetry. apply fetch_all_ext; [now symmetry | exact Hord]. }
  destruct (run_completes fetch_order2 w1 trs Hfetch2) as (w2 & Hrun2 & Hfs2).
  { rewrite Hfs, lookup_insert_eq. discriminate. }
  assert (Hsame : fs w2 = fs w1).
  { rewrite Hfs2, Hfs. apply insert_insert_eq. }
  exists w2. split; [assumption|]. split; [assumption|]. split; [|assumption].
  now rewrite Hsame.
Qed.

End Rerun.

End Properties.

(** [C1] on the sample world. *)
Lemma C1_witness :
  export_to_json half_repr storage_order sample_world
  = (Return (), (export_to_json half_repr storage_order sample_world).2)
  ∧ ∃ data w1 text,
      read_phase storage_order sample_world = (Return data, w1)
      ∧ json_dumps half_repr (PDict data) = Some text
      ∧ fs (export_to_json half_repr storage_order sample_world).2 !! lit "norms_data.json"
        = Some (FText text)
      ∧ dict_keys data = tables
      ∧ NoDup (dict_keys data)
      ∧ Forall (λ kv, is_array kv.2) data.
Proof.
  assert (H : export_to_json half_repr storage_order sample_world
              = (Return (), (export_to_json half_repr storage_order sample_world).2))
    by (vm_compute; reflexivity).
  split; [exact H|].
  exact (C1_document_has_exactly_the_five_tables half_repr storage_order _ _ H).
Defined.

(** [C2] on the sample world. *)
Lemma C2_witness :
  export_to_json half_repr storage_order sample_world
  = (Return (), (export_to_json half_repr storage_order sample_world).2)
  ∧ ∃ data w1 f db,
      read_phase storage_order sample_world = (Return data, w1)
      ∧ fs sample_world !! lit "norms_decoded.db" = Some f
      ∧ read_database f = Some db
      ∧ ∀ t, t ∈ tables →
          ∃ tb l, db !! t = Some tb
                  ∧ dict_get t data = Some (PList l)
                  ∧ length l = length (storage_order t (records tb)).
Proof.
  assert (H : export_to_json half_repr storage_order sample_world
              = (Return (), (export_to_json half_repr storage_order sample_world).2))
    by (vm_compute; reflexivity).
  split; [exact H|].
  exact (C2_array_length_is_rows_fetched half_repr storage_order _ _ H).
Defined.

(** [C4] on the world whose database lacks the table [rates]. *)
Lemma C4_witness :
  lit "rates" ∈ tables
  ∧ table_rows storage_order (connected (fs missing_table_world))
      (lit "norms_decoded.db") (lit "rates") = None
  ∧ ∃ e w', export_to_json half_repr storage_order missing_table_world = (Raise e, w')
            ∧ read_phase storage_order missing_table_world = (Raise e, w')
            ∧ query_error e
            ∧ fs w' !! lit "norms_data.json" = fs missing_table_world !! lit "norms_data.json".
Proof.
  assert (H1 : lit "rates" ∈ tables) by (apply (bool_decide_unpack _); vm_compute; exact I).
  assert (H2 : table_rows storage_order (connected (fs missing_table_world))
                 (lit "norms_decoded.db") (lit "rates") = None)
    by (vm_compute; reflexivity).
  split; [exact H1|]. split; [exact H2|].
  exact (C4_failed_read_leaves_output_untouched half_repr storage_order _ _ H1 H2).
Defined.

(** [C9] on the world without a database file. *)
Lemma C9_witness :
  fs absent_world !! lit "norms_decoded.db" = None
  ∧ ∃ w1 w',
      sqlite3_connect (lit "norms_decoded.db") (emit start_line absent_world)
      = (Return (lit "norms_decoded.db"), w1)
      ∧ fs w1 = <[lit "norms_decoded.db" := FText []]> (fs absent_world)
      ∧ read_database (finite:=Z) (FText []) = Some ∅
      ∧ export_to_json half_repr storage_order absent_world
        = (Raise (OperationalError (lit "no such table: norms")), w')
      ∧ sql_log w' = sql_log absent_world ++ [select_all (lit "norms")]
      ∧ fs w' = <[lit "norms_decoded.db" := FText []]> (fs absent_world)
      ∧ fs w' ≠ fs absent_world
      ∧ fs w' !! lit "norms_data.json" = fs absent_world !! lit "norms_data.json".
Proof.
  assert (H : fs absent_world !! lit "norms_decoded.db" = None) by (vm_compute; reflexivity).
  split; [exact H|].
  exact (C9_absent_database_is_created_then_first_query_fails half_repr storage_order _ H).
Defined.

(** [C3], amended, on the world whose database file is no database. *)
Lemma C3_witness :
  (fs garbage_world !! lit "norms_decoded.db" = None
   ∨ ∃ c cs, fs garbage_world !! lit "norms_decoded.db" = Some (FText (c :: cs)))
  ∧ (∃ w1, sqlite3_connect (lit "norms_decoded.db") (emit start_line garbage_world)
           = (Return (lit "norms_decoded.db"), w1))
  ∧ ∃ e w',
      export_to_json half_repr storage_order garbage_world = (Raise e, w')
      ∧ (e = OperationalError (lit "no such table: norms")
         ∨ e = DatabaseError (lit "file is not a database"))
      ∧ sql_log w' = sql_log garbage_world ++ [select_all (lit "norms")]
      ∧ stdout w' = stdout garbage_world ++ [start_line]
      ∧ fs w' !! lit "norms_data.json" = fs garbage_world !! lit "norms_data.json".
Proof.
  assert (H : fs garbage_world !! lit "norms_decoded.db" = None
              ∨ ∃ c cs, fs garbage_world !! lit "norms_decoded.db" = Some (FText (c :: cs))).
  { right. eexists _, _. vm_compute. reflexivity. }
  split; [exact H|].
  exact (C3_unusable_database_fails_at_first_query half_repr storage_order _ H).
Defined.

(** [C3] fails in the world without a database file: the open returns a
    connection, and the statement for [norms] is issued before the run
    ends. *)
Lemma C3_counterexample : ¬ open_fails_when_absent absent_world.
Proof.
  intros H. destruct H as [(e & w1 & Hopen) Hlog]; [vm_compute; reflexivity|].
  vm_compute in Hlog. discriminate Hlog.
Qed.

(** [C7] on the sample world. *)
Lemma C7_witness :
  export_to_json half_repr storage_order sample_world
  = (Return (), (export_to_json half_repr storage_order sample_world).2)
  ∧ (∃ n, sql_log (export_to_json half_repr storage_order sample_world).2
          = sql_log sample_world ++ map select_all (take n tables))
  ∧ (Return () = Return () →
     sql_log (export_to_json half_repr storage_order sample_world).2
     = sql_log sample_world ++ map select_all tables
     ∧ ∃ data w1 doc,
         read_phase storage_order sample_world = (Return data, w1)
         ∧ dict_keys data = tables
         ∧ map fst doc = tables
         ∧ fs (export_to_json half_repr storage_order sample_world).2 !! lit "norms_data.json"
           = Some (FText (pretty_document half_repr doc))).
Proof.
  assert (H : export_to_json half_repr storage_order sample_world
              = (Return (), (export_to_json half_repr storage_order sample_world).2))
    by (vm_compute; reflexivity).
  split; [exact H|].
  exact (C7_tables_queried_and_keyed_in_list_order half_repr storage_order _ _ _ H).
Defined.


(** [C6] on the sample world, the engine keeping storage order. *)
Lemma C6_witness :
  (∀ f db t tb, fs sample_world !! lit "norms_decoded.db" = Some f →
                read_database f = Some db → t ∈ tables → db !! t = Some tb →
                storage_order t (records tb) = storage_order t (records tb))
  ∧ export_to_json half_repr storage_order sample_world
    = (Return (), (export_to_json half_repr storage_order sample_world).2)
  ∧ ∃ w2, export_to_json half_repr storage_order
            (export_to_json half_repr storage_order sample_world).2 = (Return (), w2)
          ∧ fs (export_to_json half_repr storage_order sample_world).2 !! lit "norms_decoded.db"
            = fs sample_world !! lit "norms_decoded.db"
          ∧ fs w2 !! lit "norms_data.json"
            = fs (export_to_json half_repr storage_order sample_world).2 !! lit "norms_data.json"
          ∧ fs w2 = fs (export_to_json half_repr storage_order sample_world).2.
Proof.
  assert (H0 : ∀ f db t tb, fs sample_world !! lit "norms_decoded.db" = Some f →
                read_database f = Some db → t ∈ tables → db !! t = Some tb →
                storage_order t (records tb) = storage_order t (records tb))
    by reflexivity.
  assert (H : export_to_json half_repr storage_order sample_world
              = (Return (), (export_to_json half_repr storage_order sample_world).2))
    by (vm_compute; reflexivity).
  split; [exact H0|]. split; [exact H|].
  exact (C6_rerun_writes_the_same_bytes half_repr storage_order storage_order _ _ H0 H).
Defined.

(** The proviso of [C6] is needed: an engine that hands the records out in
    another order makes the same database export to other bytes. *)
Example fetch_order_matters :
  fs (export_to_json half_repr storage_order sample_world).2 !! lit "norms_data.json"
  ≠ fs (export_to_json half_repr reverse_order sample_world).2 !! lit "norms_data.json".
Proof. vm_compute. discriminate. Qed.

(** * Further properties of the script *)

(** ** The text written is ASCII *)

Lemma ascii_text_app s1 s2 : ascii_text s1 → ascii_text s2 → ascii_text (s1 ++ s2).
Proof. intros H1 H2. apply Forall_app. now split. Qed.

Lemma printable_ascii_text s : Forall printable s → ascii_text s.
Proof.
  intros Hs. eapply Forall_impl; [exact Hs|]. intros c [_ Hc]. lia.
Qed.

Lemma hex4_ascii n : ascii_text (hex4 n).
Proof.
  apply printable_ascii_text. unfold hex4.
  repeat constructor; apply hexdigit_printable; apply N.mod_upper_bound; discriminate.
Qed.

Lemma escape_ascii_ascii c : ascii_text (escape_ascii c).
Proof.
  unfold escape_ascii.
  destruct (c =? 34); [repeat constructor|].
  destruct (c =? 92); [repeat constructor|].
  destruct (c =? 10); [repeat constructor|].
  destruct (c =? 13); [repeat constructor|].
  destruct (c =? 9); [repeat constructor|].
  destruct (c =? 12); [repeat constructor|].
  destruct (c =? 8); [repeat constructor|].
  destruct ((32 <=? c) && (c <=? 126)) eqn:E.
  { apply andb_true_iff in E as [_ E]. apply N.leb_le in E.
    repeat constructor. lia. }
  destruct (c <? 65536).
  - apply ascii_text_app; [repeat constructor | apply hex4_ascii].
  - cbv zeta. repeat apply ascii_text_app; try apply hex4_ascii; repeat constructor.
Qed.

Lemma encode_basestring_ascii_ascii s : ascii_text (encode_basestring_ascii s).
Proof.
  unfold encode_basestring_ascii.
  repeat apply ascii_text_app; try (repeat constructor).
  apply Forall_concat, Forall_map, Forall_forall. intros c _. apply escape_ascii_ascii.
Qed.

Lemma int_repr_ascii z : ascii_text (int_repr z).
Proof.
  assert (H : ∀ d, ascii_text (digits_of_uint d)).
  { induction d; cbn [digits_of_uint]; repeat constructor; assumption. }
  destruct z; cbn [int_repr]; [repeat constructor | apply H |].
  constructor; [reflexivity | apply H].
Qed.

Lemma newline_indent_ascii indent lvl : ascii_text (newline_indent indent lvl).
Proof.
  unfold newline_indent. constructor; [reflexivity|].
  induction (indent * lvl)%nat as [|n IH]; cbn [repeat]; constructor;
    [reflexivity | exact IH].
Qed.

Lemma join_ascii sep items :
  ascii_text sep → Forall ascii_text items → ascii_text (join sep items).
Proof.
  intros Hsep Hitems. induction Hitems as [|x items Hx Hitems IH]; [constructor|].
  cbn [join]. destruct items as [|y items]; [assumption|].
  repeat apply ascii_text_app; assumption.
Qed.

Lemma render_members_ascii indent lvl opening closing items :
  ascii_text opening → ascii_text closing → Forall ascii_text items →
  ascii_text (render_members indent lvl opening closing items).
Proof.
  intros Ho Hc Hitems. unfold render_members.
  repeat apply ascii_text_app; try assumption; try apply newline_indent_ascii.
  apply join_ascii; [|assumption].
  apply ascii_text_app; [repeat constructor | apply newline_indent_ascii].
Qed.

Section Further.

Context {finite : Type}.
Variable float_repr : finite → pystr.
Variable fetch_order :
  pystr → list (list (sqlvalue (finite:=finite))) → list (list (sqlvalue (finite:=finite))).

Abbreviation db_file := (lit "norms_decoded.db").
Abbreviation out_file := (lit "norms_data.json").

(** ** The loop, line by line *)

Lemma cursor_execute_error conn t (w : world (finite:=finite)) :
  table_rows fetch_order (fs w) conn t = None →
  cursor_execute fetch_order conn (select_all t) w
  = (Raise (execute_error (fs w) conn t), log_sql (select_all t) w).
Proof.
  unfold table_rows, cursor_execute, execute_error, select_all. cbn [fs log_sql].
  rewrite strip_prefix_app.
  destruct (fs w !! conn) as [f|]; cbn [mbind option_bind]; [|reflexivity].
  destruct (read_database f) as [db|] eqn:Hdb; cbn [mbind option_bind].
  - destruct (db !! t) as [tb|]; cbn [mbind option_bind]; [discriminate | reflexivity].
  - intros _. destruct f as [db|[|c cs]|]; try reflexivity; discriminate.
Qed.

Lemma export_tables_transcript conn ts data (w : world (finite:=finite)) :
  ∃ w',
    fs w' = fs w
    ∧ stdout w' = stdout w ++ map progress_line (fetch_prefix fetch_order (fs w) conn ts).1
    ∧ sql_log w'
      = sql_log w ++ map select_all
                       (map fst (fetch_prefix fetch_order (fs w) conn ts).1
                        ++ option_list (fetch_prefix fetch_order (fs w) conn ts).2)
    ∧ match (fetch_prefix fetch_order (fs w) conn ts).2 with
      | None =>
          ∃ d, collect fetch_order (fs w) conn ts data = Some d
               ∧ export_tables fetch_order conn ts data w = (Return d, w')
      | Some t =>
          collect fetch_order (fs w) conn ts data = None
          ∧ table_rows fetch_order (fs w) conn t = None
          ∧ export_tables fetch_order conn ts data w
            = (Raise (execute_error (fs w) conn t), w')
      end.
Proof.
  revert data w. induction ts as [|t ts IH]; intros data w.
  - exists w. cbn. rewrite !app_nil_r. repeat split. now exists data.
  - rewrite export_tables_cons. cbn [fetch_prefix collect].
    destruct (table_rows fetch_order (fs w) conn t) as [rows|] eqn:Hrows.
    + rewrite (cursor_execute_ok _ _ _ _ _ Hrows). cbn [pending set_pending mbind option_bind].
      match goal with
      | |- context [export_tables _ _ _ ?d ?w1] => destruct (IH d w1) as (w' & Hfs & Hout & Hlog & Hres)
      end.
      cbn [fs emit set_pending log_sql sql_log stdout] in Hfs, Hout, Hlog, Hres.
      destruct (fetch_prefix fetch_order (fs w) conn ts) as [trs failed].
      cbn [fst snd] in *.
      exists w'. split; [assumption|]. split; [|split].
      * rewrite Hout, <- app_assoc. reflexivity.
      * rewrite Hlog, <- app_assoc. reflexivity.
      * exact Hres.
    + rewrite (cursor_execute_error _ _ _ Hrows).
      exists (log_sql (select_all t) w).
      cbn [fst snd fs log_sql stdout sql_log map app option_list].
      split; [reflexivity|]. split; [now rewrite app_nil_r|]. split; [reflexivity|].
      auto.
Qed.

Lemma fetch_prefix_all fsys conn ts :
  fetch_all fetch_order fsys conn ts
  = match (fetch_prefix fetch_order fsys conn ts).2 with
    | None => Some (fetch_prefix fetch_order fsys conn ts).1
    | Some _ => None
    end.
Proof.
  unfold fetch_all. induction ts as [|t ts IH]; [reflexivity|].
  cbn [mapM fetch_prefix].
  destruct (table_rows fetch_order fsys conn t) as [rows|]; [|reflexivity].
  cbn [mbind option_bind]. rewrite IH.
  destruct (fetch_prefix fetch_order fsys conn ts) as [trs [t'|]]; reflexivity.
Qed.


(** ** Every run, whatever its outcome *)

Lemma read_phase_loop (w : world (finite:=finite)) :
  fs w !! db_file ≠ Some FDir →
  read_phase fetch_order w
  = export_tables fetch_order db_file tables []
      (set_fs (connected (fs w)) (emit start_line w)).
Proof.
  intros Hdir. rewrite read_phase_run.
  destruct (fs w !! db_file) as [[db|c|]|]; try reflexivity. contradiction.
Qed.

Lemma fetch_all_absent (fsys : gmap pystr (file (finite:=finite))) t ts :
  fsys !! db_file = None →
  fetch_all fetch_order (connected fsys) db_file (t :: ts) = None.
Proof.
  intros Hf. unfold connected. rewrite Hf. unfold fetch_all. cbn [mapM].
  unfold table_rows. rewrite lookup_insert_eq. cbn. now rewrite lookup_empty.
Qed.

Lemma run_outcome (w : world (finite:=finite)) :
  fs w !! db_file ≠ Some FDir →
  ∃ w',
    stdout w'
    = stdout w
      ++ start_line
         :: map progress_line (fetch_prefix fetch_order (connected (fs w)) db_file tables).1
      ++ match (fetch_prefix fetch_order (connected (fs w)) db_file tables).2,
               fs w !! out_file with
         | None, Some FDir => []
         | None, _ => [done_line]
         | Some _, _ => []
         end
    ∧ sql_log w'
      = sql_log w
        ++ map select_all
             (map fst (fetch_prefix fetch_order (connected (fs w)) db_file tables).1
              ++ option_list (fetch_prefix fetch_order (connected (fs w)) db_file tables).2)
    ∧ match (fetch_prefix fetch_order (connected (fs w)) db_file tables).2 with
      | Some t =>
          export_to_json float_repr fetch_order w
          = (Raise (execute_error (connected (fs w)) db_file t), w')
          ∧ table_rows fetch_order (connected (fs w)) db_file t = None
          ∧ fs w' = connected (fs w)
      | None =>
          fetch_all fetch_order (fs w) db_file tables
          = Some (fetch_prefix fetch_order (connected (fs w)) db_file tables).1
          ∧ connected (fs w) = fs w
          ∧ match fs w !! out_file with
            | Some FDir =>
                export_to_json float_repr fetch_order w
                = (Raise (IsADirectoryError out_file), w')
                ∧ fs w' = fs w
            | _ =>
                export_to_json float_repr fetch_order w = (Return (), w')
                ∧ fs w'
                  = <[out_file :=
                        FText (pretty_document float_repr
                                 (map typed_entry
                                    (fetch_prefix fetch_order (connected (fs w))
                                       db_file tables).1))]> (fs w)
            end
      end.
Proof.
  intros Hdir.
  rewrite export_to_json_phases, (read_phase_loop w Hdir).
  destruct (export_tables_transcript db_file tables []
              (set_fs (connected (fs w)) (emit start_line w)))
    as (w1 & Hfs & Hout & Hlog & Hres).
  cbn [fs set_fs emit stdout sql_log] in Hfs, Hout, Hlog, Hres.
  pose proof (fetch_prefix_all (connected (fs w)) db_file tables) as Hall.
  pose proof (collect_fetch_all fetch_order (connected (fs w)) db_file tables []
                tables_NoDup) as Hcollect.
  destruct (fetch_prefix fetch_order (connected (fs w)) db_file tables) as [trs [t|]].
  - cbn [fst snd] in *. destruct Hres as (_ & Hnone & Hrun).
    exists w1. rewrite Hrun, Hout, Hlog, <- app_assoc, app_nil_r. auto.
  - cbn [fst snd] in *. destruct Hres as (d & Hd & Hrun).
    rewrite Hall in Hcollect. cbn [mbind option_bind app] in Hcollect.
    rewrite Hcollect in Hd. injection Hd as <-.
    assert (Hconn : connected (fs w) = fs w).
    { destruct (fs w !! db_file) as [f|] eqn:Hf; [unfold connected; now rewrite Hf|].
      unfold tables in Hall. rewrite fetch_all_absent in Hall by assumption.
      discriminate. }
    rewrite Hconn in *.
    rewrite Hrun, write_phase_run, json_dumps_entries, Hfs.
    destruct (fs w !! out_file) as [[db'|c|]|] eqn:Ho.
    3: { exists w1. rewrite Hout, Hlog, !app_nil_r, <- app_assoc.
         repeat split; try reflexivity; assumption. }
    all: exists (emit done_line
                   (set_fs (<[out_file := FText (pretty_document float_repr
                                                   (map typed_entry trs))]> (fs w)) w1));
      cbn [fs set_fs emit stdout sql_log]; rewrite Hout, Hlog, app_nil_r, <- !app_assoc;
      repeat split; try reflexivity; assumption.
Qed.


Lemma completed_run_reads_a_database (w w' : world (finite:=finite)) :
  export_to_json float_repr fetch_order w = (Return (), w') →
  fs w !! db_file ≠ Some FDir.
Proof.
  intros Hrun Hdir.
  rewrite export_to_json_phases, read_phase_run, Hdir in Hrun. discriminate.
Qed.


(** In a run that completes the console shows the start notice, then for
    each table of the list, in order, the line with the number of rows
    fetched for it, which is the length of its array in the document, and
    last the completion notice. *)
Theorem completed_run_transcript (w w' : world (finite:=finite)) :
  export_to_json float_repr fetch_order w = (Return (), w') →
  ∃ trs w1,
    read_phase fetch_order w = (Return (map entry trs), w1)
    ∧ map fst trs = tables
    ∧ stdout w' = stdout w ++ start_line :: map progress_line trs ++ [done_line].
Proof.
  intros Hrun.
  destruct (run_Return _ _ _ _ Hrun) as (trs & w1 & Hfetch & Hread & _).
  exists trs, w1. split; [assumption|].
  split; [now apply fetch_all_keys in Hfetch|].
  destruct (run_outcome w (completed_run_reads_a_database _ _ Hrun))
    as (w2 & Hout & _ & Hres).
  destruct (fetch_prefix fetch_order (connected (fs w)) db_file tables) as [trs' [t|]];
    cbn [fst snd] in *.
  - destruct Hres as (Hrun' & _). congruence.
  - destruct Hres as (Hfetch' & _ & Hres).
    assert (trs' = trs) as -> by congruence.
    destruct (fs w !! out_file) as [[db|c|]|]; destruct Hres as (Hrun' & _);
      rewrite Hrun in Hrun'; try discriminate; now injection Hrun' as <-.
Qed.



Lemma completed_run_arrays (w w' : world (finite:=finite)) :
  export_to_json float_repr fetch_order w = (Return (), w') →
  ∃ data w1 f db,
    read_phase fetch_order w = (Return data, w1)
    ∧ fs w !! db_file = Some f
    ∧ read_database f = Some db
    ∧ ∀ t, t ∈ tables →
        ∃ tb, db !! t = Some tb
              ∧ dict_get t data
                = Some (PList (map (λ rec, dict_of_row (Build_Row (columns tb) rec))
                                 (fetch_order t (records tb)))).
Proof.
  intros Hrun.
  destruct (run_Return _ _ _ _ Hrun) as (trs & w1 & Hfetch & Hread & _).
  destruct (read_phase_Return _ _ _ _ Hread) as (Hc & _ & _).
  unfold tables in Hfetch.
  destruct (fetch_all_database _ _ _ _ _ _ Hfetch) as (f & db & Hf & Hdb).
  exists (map entry trs), w1, f, db.
  split; [assumption|]. split; [assumption|]. split; [assumption|].
  intros t Ht.
  destruct (collect_get fetch_order _ _ _ _ _ _ tables_NoDup Ht Hc) as (rows & Hrows & Hget).
  apply table_rows_Some in Hrows as (f' & db' & tb & Hf' & Hdb' & Htb & ->).
  rewrite Hf in Hf'. injection Hf' as <-.
  rewrite Hdb in Hdb'. injection Hdb' as <-.
  exists tb. split; [assumption|]. now rewrite Hget, map_map.
Qed.

(** In a run that completes, the array of a table holds, element by
    element and in the order the engine handed the records out, the
    dictionary of each record under the columns of the table. *)
Theorem arrays_hold_the_rows_in_fetch_order (w w' : world (finite:=finite)) :
  export_to_json float_repr fetch_order w = (Return (), w') →
  ∃ data w1 f db,
    read_phase fetch_order w = (Return data, w1)
    ∧ fs w !! db_file = Some f
    ∧ read_database f = Some db
    ∧ ∀ t, t ∈ tables →
        ∃ tb, db !! t = Some tb
              ∧ dict_get t data
                = Some (PList (map (λ rec, dict_of_row (Build_Row (columns tb) rec))
                                 (fetch_order t (records tb)))).
Proof. apply completed_run_arrays. Qed.



(** When the path of the database is a directory the open fails: the
    start notice is all that is printed, no statement is issued and no file
    changes. *)
Theorem directory_database_fails_at_open (w : world (finite:=finite)) :
  fs w !! db_file = Some FDir →
  ∃ w', export_to_json float_repr fetch_order w
        = (Raise (OperationalError (lit "unable to open database file")), w')
        ∧ stdout w' = stdout w ++ [start_line]
        ∧ sql_log w' = sql_log w
        ∧ fs w' = fs w.
Proof.
  intros Hdir. rewrite export_to_json_phases, read_phase_run, Hdir.
  eexists. split; [reflexivity|]. auto.
Qed.



(** ** [dict(row)] *)

Lemma dict_of_pairs_distinct {V} (ps d : list (pystr * V)) :
  NoDup (dict_keys d ++ map fst ps) →
  fold_left (λ d kv, dict_set kv.1 kv.2 d) ps d = d ++ ps.
Proof.
  revert d. induction ps as [|[k v] ps IH]; intros d Hnd.
  - now rewrite app_nil_r.
  - cbn [fold_left fst snd]. cbn [map fst] in Hnd.
    assert (Hk : k ∉ dict_keys d).
    { intros Hin. apply NoDup_app in Hnd as (_ & Hdis & _). apply (Hdis k Hin). left. }
    rewrite (dict_set_fresh _ _ _ Hk), IH.
    + now rewrite <- app_assoc.
    + unfold dict_keys in *. rewrite map_app, <- app_assoc. exact Hnd.
Qed.

Lemma combine_keys_NoDup {V} (ks : list pystr) (vs : list V) :
  NoDup ks → NoDup (map fst (combine ks vs)).
Proof.
  intros Hnd. revert vs. induction Hnd as [|k ks Hk Hnd IH]; intros [|v vs];
    cbn [combine map fst]; try constructor.
  - intros Hin. apply Hk. clear -Hin. revert vs Hin.
    induction ks as [|k' ks IH]; intros [|v' vs] Hin; cbn in Hin;
      try (now apply elem_of_nil in Hin).
    apply elem_of_cons in Hin as [->|Hin]; [left | right; eauto].
  - apply IH.
Qed.

Lemma combine_projections {V} (ks : list pystr) (vs : list V) :
  length ks = length vs →
  map fst (combine ks vs) = ks ∧ map snd (combine ks vs) = vs.
Proof.
  revert vs. induction ks as [|k ks IH]; intros [|v vs] Hlen; try discriminate; [auto|].
  cbn [combine map fst snd]. injection Hlen as Hlen.
  destruct (IH vs Hlen) as [-> ->]. auto.
Qed.

(** For a row whose column names are distinct --- as those of a table are
    --- [dict(row)] has one field for every column, in the order of the
    columns, holding the value of that column, and the row is written as
    the object of exactly those fields. *)
Theorem dict_of_row_keeps_the_columns (r : Row (finite:=finite)) :
  NoDup (keys r) →
  length (keys r) = length (vals r) →
  row_fields r = combine (keys r) (vals r)
  ∧ map fst (row_fields r) = keys r
  ∧ map snd (row_fields r) = vals r
  ∧ dict_of_row r = PDict (combine (keys r) (map py_of_sql (vals r)))
  ∧ iterencode float_repr 2 (Some bytes_repr) 2 (dict_of_row r)
    = Some (pretty_row float_repr (combine (keys r) (vals r))).
Proof.
  intros Hnd Hlen.
  assert (Hfields : row_fields r = combine (keys r) (vals r)).
  { unfold row_fields, dict_of_pairs.
    rewrite dict_of_pairs_distinct; [reflexivity|].
    cbn [dict_keys map app]. now apply combine_keys_NoDup. }
  split; [assumption|]. rewrite Hfields.
  destruct (combine_projections (keys r) (vals r) Hlen) as [Hk Hv].
  split; [assumption|]. split; [assumption|].
  split.
  - rewrite dict_of_row_fields, Hfields. now rewrite combine_convert.
  - now rewrite iterencode_row, Hfields.
Qed.

(** ** The encoder and its fallback *)

Lemma floatstr_ascii (f : pyfloat (finite:=finite)) :
  (∀ x, ascii_text (float_repr x)) → ascii_text (floatstr float_repr f).
Proof. intros H. destruct f; cbn [floatstr]; [repeat constructor.. | apply H]. Qed.

Lemma iterencode_ascii indent default (o : pyvalue (finite:=finite)) :
  (∀ x, ascii_text (float_repr x)) →
  ∀ lvl text, iterencode float_repr indent default lvl o = Some text → ascii_text text.
Proof.
  intros Hfloat.
  induction o as [| z | f | s | b | l IH | d IH] using pyvalue_nested_ind;
    intros lvl text.
  - intros [= <-]. repeat constructor.
  - intros [= <-]. apply int_repr_ascii.
  - intros [= <-]. now apply floatstr_ascii.
  - intros [= <-]. apply encode_basestring_ascii_ascii.
  - cbn [iterencode]. destruct default as [g|]; [|discriminate].
    intros [= <-]. apply encode_basestring_ascii_ascii.
  - destruct l as [|x l]; [intros [= <-]; repeat constructor|].
    rewrite iterencode_list.
    destruct (mapM _ (x :: l)) as [items|] eqn:Hm; [|discriminate].
    intros [= <-]. apply render_members_ascii; try (repeat constructor).
    apply mapM_Some_1 in Hm.
    clear -IH Hm. induction Hm as [|y c l' items Hy Hm IHm]; [constructor|].
    apply Forall_cons in IH as [IHy IHl]. constructor; eauto.
  - destruct d as [|kv d]; [intros [= <-]; repeat constructor|].
    rewrite iterencode_dict.
    destruct (mapM _ (kv :: d)) as [items|] eqn:Hm; [|discriminate].
    intros [= <-]. apply render_members_ascii; try (repeat constructor).
    apply mapM_Some_1 in Hm.
    clear -IH Hm. induction Hm as [|[k v] c l' items Hy Hm IHm]; [constructor|].
    apply Forall_cons in IH as [IHy IHl]. constructor; [|eauto].
    unfold encode_member in Hy. cbn [fst snd] in Hy, IHy.
    destruct (iterencode float_repr indent default (S lvl) v) as [cv|] eqn:Hv;
      [|discriminate].
    apply (inj Some) in Hy. subst c.
    apply ascii_text_app; [apply encode_basestring_ascii_ascii|].
    apply ascii_text_app; [repeat constructor | eauto].
Qed.

(** If [float.__repr__] writes ASCII, as it does, the file a completed run
    has written holds ASCII characters only, whatever text and blobs the
    database holds; so its bytes are the same in every ASCII-compatible
    encoding the file may have been opened with. *)
Theorem output_file_is_ascii (w w' : world (finite:=finite)) :
  (∀ x, ascii_text (float_repr x)) →
  export_to_json float_repr fetch_order w = (Return (), w') →
  ∃ text, fs w' !! out_file = Some (FText text) ∧ ascii_text text.
Proof.
  intros Hfloat Hrun.
  destruct (run_Return _ _ _ _ Hrun) as (trs & w1 & _ & _ & Hdumps & Hfs & _).
  eexists. split; [rewrite Hfs; apply lookup_insert_eq|].
  eapply iterencode_ascii; [exact Hfloat | exact Hdumps].
Qed.

Lemma existsb_false_Forall {A} (p : A → bool) l :
  existsb p l = false ↔ Forall (λ x, p x = false) l.
Proof.
  induction l as [|x l IH]; cbn [existsb].
  - split; [constructor | reflexivity].
  - rewrite orb_false_iff, IH, Forall_cons. reflexivity.
Qed.

Lemma strict_encoder_succeeds_iff indent (o : pyvalue (finite:=finite)) :
  ∀ lvl, is_Some (iterencode float_repr indent None lvl o) ↔ contains_bytes o = false.
Proof.
  induction o as [| z | f | s | b | l IH | d IH] using pyvalue_nested_ind; intros lvl;
    try (cbn; split; [reflexivity | intros _; eexists; reflexivity]).
  - cbn. split; [intros [x Hx]; discriminate | discriminate].
  - destruct l as [|x l]; [cbn; split; [reflexivity | intros _; eexists; reflexivity]|].
    rewrite iterencode_list. cbn [contains_bytes].
    rewrite existsb_false_Forall.
    transitivity (is_Some (mapM (iterencode float_repr indent None (S lvl)) (x :: l))).
    { destruct (mapM _ (x :: l)); cbn; split; intros [y Hy]; try discriminate; eauto. }
    rewrite mapM_is_Some. split; intros H.
    + clear -IH H. induction H as [|y l' Hy H IHl]; [constructor|].
      apply Forall_cons in IH as [IHy IH']. constructor; [now apply IHy in Hy | eauto].
    + clear -IH H. induction H as [|y l' Hy H IHl]; [constructor|].
      apply Forall_cons in IH as [IHy IH']. constructor; [now apply IHy | eauto].
  - destruct d as [|kv d]; [cbn; split; [reflexivity | intros _; eexists; reflexivity]|].
    rewrite iterencode_dict. cbn [contains_bytes].
    rewrite existsb_false_Forall.
    transitivity (is_Some (mapM (encode_member float_repr indent None lvl) (kv :: d))).
    { destruct (mapM _ (kv :: d)); cbn; split; intros [y Hy]; try discriminate; eauto. }
    rewrite mapM_is_Some.
    assert (Hmem : ∀ kv' : pystr * pyvalue,
               is_Some (encode_member float_repr indent None lvl kv')
               ↔ is_Some (iterencode float_repr indent None (S lvl) kv'.2)).
    { intros [k v]. unfold encode_member. cbn [fst snd].
      destruct (iterencode float_repr indent None (S lvl) v); cbn;
        split; intros [y Hy]; try discriminate; eauto. }
    split; intros H.
    + clear -IH H Hmem. induction H as [|y l' Hy H IHl]; [constructor|].
      apply Forall_cons in IH as [IHy IH']. constructor; [|eauto].
      apply Hmem in Hy. now apply IHy in Hy.
    + clear -IH H Hmem. induction H as [|y l' Hy H IHl]; [constructor|].
      apply Forall_cons in IH as [IHy IH']. constructor; [|eauto].
      apply Hmem. now apply IHy.
Qed.

(** Without the fallback [default=str] the encoder raises exactly on the
    values that hold a [bytes] object somewhere; with it, it raises on
    none. *)
Theorem fallback_is_needed_exactly_for_bytes indent lvl (o : pyvalue (finite:=finite)) :
  (iterencode float_repr indent None lvl o = None ↔ contains_bytes o = true)
  ∧ is_Some (iterencode float_repr indent (Some bytes_repr) lvl o).
Proof.
  split; [|apply iterencode_total].
  pose proof (strict_encoder_succeeds_iff indent o lvl) as H.
  destruct (iterencode float_repr indent None lvl o) as [text|];
    destruct (contains_bytes o); split; try reflexivity; try discriminate.
  - intros _. destruct H as [H _]. discriminate H. now eexists.
  - intros _. destruct H as [_ H]. destruct H as [x Hx]; [reflexivity | discriminate].
Qed.

End Further.

(** ** Two engines *)

Section TwoEngines.

Context {finite : Type}.
Variable float_repr : finite → pystr.
Variables fetch_order1 fetch_order2 :
  pystr → list (list (sqlvalue (finite:=finite))) → list (list (sqlvalue (finite:=finite))).

(** Two engines that hand out the same records of each table, in whatever
    order each, export the same rows: for every table the two arrays are
    permutations of one another. *)
Theorem arrays_agree_up_to_order (w w1 w2 : world (finite:=finite)) :
  (∀ f db t tb, fs w !! lit "norms_decoded.db" = Some f → read_database f = Some db →
                t ∈ tables → db !! t = Some tb →
                fetch_order1 t (records tb) ≡ₚ fetch_order2 t (records tb)) →
  export_to_json float_repr fetch_order1 w = (Return (), w1) →
  export_to_json float_repr fetch_order2 w = (Return (), w2) →
  ∃ data1 data2 v1 v2,
    read_phase fetch_order1 w = (Return data1, v1)
    ∧ read_phase fetch_order2 w = (Return data2, v2)
    ∧ ∀ t, t ∈ tables →
        ∃ l1 l2, dict_get t data1 = Some (PList l1)
                 ∧ dict_get t data2 = Some (PList l2)
                 ∧ l1 ≡ₚ l2.
Proof.
  intros Hperm Hrun1 Hrun2.
  destruct (completed_run_arrays float_repr fetch_order1 w w1 Hrun1)
    as (data1 & v1 & f & db & Hread1 & Hf & Hdb & Harr1).
  destruct (completed_run_arrays float_repr fetch_order2 w w2 Hrun2)
    as (data2 & v2 & f' & db' & Hread2 & Hf' & Hdb' & Harr2).
  rewrite Hf in Hf'. injection Hf' as <-.
  rewrite Hdb in Hdb'. injection Hdb' as <-.
  exists data1, data2, v1, v2. split; [assumption|]. split; [assumption|].
  intros t Ht.
  destruct (Harr1 t Ht) as (tb & Htb & Hget1).
  destruct (Harr2 t Ht) as (tb' & Htb' & Hget2).
  rewrite Htb in Htb'. injection Htb' as <-.
  eexists _, _. split; [exact Hget1|]. split; [exact Hget2|].
  apply Permutation_map. now apply (Hperm f db t tb).
Qed.

End TwoEngines.

(** ** The further properties on the sample worlds *)

Lemma completed_run_transcript_witness :
  export_to_json half_repr storage_order sample_world
  = (Return (), (export_to_json half_repr storage_order sample_world).2)
  ∧ ∃ trs w1,
      read_phase storage_order sample_world = (Return (map entry trs), w1)
      ∧ map fst trs = tables
      ∧ stdout (export_to_json half_repr storage_order sample_world).2
        = stdout sample_world ++ start_line :: map progress_line trs ++ [done_line].
Proof.
  assert (H : export_to_json half_repr storage_order sample_world
              = (Return (), (export_to_json half_repr storage_order sample_world).2))
    by (vm_compute; reflexivity).
  split; [exact H|].
  exact (completed_run_transcript half_repr storage_order _ _ H).
Defined.



Lemma arrays_hold_the_rows_in_fetch_order_witness :
  export_to_json half_repr reverse_order sample_world
  = (Return (), (export_to_json half_repr reverse_order sample_world).2)
  ∧ ∃ data w1 f db,
      read_phase reverse_order sample_world = (Return data, w1)
      ∧ fs sample_world !! lit "norms_decoded.db" = Some f
      ∧ read_database f = Some db
      ∧ ∀ t, t ∈ tables →
          ∃ tb, db !! t = Some tb
                ∧ dict_get t data
                  = Some (PList (map (λ rec, dict_of_row (Build_Row (columns tb) rec))
                                   (reverse_order t (records tb)))).
Proof.
  assert (H : export_to_json half_repr reverse_order sample_world
              = (Return (), (export_to_json half_repr reverse_order sample_world).2))
    by (vm_compute; reflexivity).
  split; [exact H|].
  exact (arrays_hold_the_rows_in_fetch_order half_repr reverse_order _ _ H).
Defined.


Lemma directory_database_fails_at_open_witness :
  fs directory_world !! lit "norms_decoded.db" = Some FDir
  ∧ ∃ w', export_to_json half_repr storage_order directory_world
          = (Raise (OperationalError (lit "unable to open database file")), w')
          ∧ stdout w' = stdout directory_world ++ [start_line]
          ∧ sql_log w' = sql_log directory_world
          ∧ fs w' = fs directory_world.
Proof.
  assert (H : fs directory_world !! lit "norms_decoded.db" = Some FDir)
    by (vm_compute; reflexivity).
  split; [exact H|].
  exact (directory_database_fails_at_open half_repr storage_order _ H).
Defined.


Lemma dict_of_row_keeps_the_columns_witness :
  NoDup (keys sample_row)
  ∧ length (keys sample_row) = length (vals sample_row)
  ∧ row_fields sample_row = combine (keys sample_row) (vals sample_row)
  ∧ map fst (row_fields sample_row) = keys sample_row
  ∧ map snd (row_fields sample_row) = vals sample_row
  ∧ dict_of_row sample_row
    = PDict (combine (keys sample_row) (map py_of_sql (vals sample_row)))
  ∧ iterencode half_repr 2 (Some bytes_repr) 2 (dict_of_row sample_row)
    = Some (pretty_row half_repr (combine (keys sample_row) (vals sample_row))).
Proof.
  assert (H1 : NoDup (keys sample_row))
    by (apply (bool_decide_unpack _); vm_compute; exact I).
  assert (H2 : length (keys sample_row) = length (vals sample_row)) by reflexivity.
  split; [exact H1|]. split; [exact H2|].
  exact (dict_of_row_keeps_the_columns half_repr sample_row H1 H2).
Defined.

Lemma half_repr_ascii x : ascii_text (half_repr x).
Proof.
  unfold half_repr. apply ascii_text_app; [|apply ascii_text_app].
  - destruct (x <? 0)%Z; repeat constructor.
  - apply int_repr_ascii.
  - destruct (Z.even x); repeat constructor.
Qed.

Lemma output_file_is_ascii_witness :
  (∀ x, ascii_text (half_repr x))
  ∧ export_to_json half_repr storage_order sample_world
    = (Return (), (export_to_json half_repr storage_order sample_world).2)
  ∧ ∃ text,
      fs (export_to_json half_repr storage_order sample_world).2 !! lit "norms_data.json"
      = Some (FText text)
      ∧ ascii_text text.
Proof.
  assert (H : export_to_json half_repr storage_order sample_world
              = (Return (), (export_to_json half_repr storage_order sample_world).2))
    by (vm_compute; reflexivity).
  split; [exact half_repr_ascii|]. split; [exact H|].
  exact (output_file_is_ascii half_repr storage_order _ _ half_repr_ascii H).
Defined.

Lemma arrays_agree_up_to_order_witness :
  (∀ f db t tb, fs sample_world !! lit "norms_decoded.db" = Some f →
                read_database f = Some db → t ∈ tables → db !! t = Some tb →
                storage_order t (records tb) ≡ₚ reverse_order t (records tb))
  ∧ export_to_json half_repr storage_order sample_world
    = (Return (), (export_to_json half_repr storage_order sample_world).2)
  ∧ export_to_json half_repr reverse_order sample_world
    = (Return (), (export_to_json half_repr reverse_order sample_world).2)
  ∧ ∃ data1 data2 v1 v2,
      read_phase storage_order sample_world = (Return data1, v1)
      ∧ read_phase reverse_order sample_world = (Return data2, v2)
      ∧ ∀ t, t ∈ tables →
          ∃ l1 l2, dict_get t data1 = Some (PList l1)
                   ∧ dict_get t data2 = Some (PList l2)
                   ∧ l1 ≡ₚ l2.
Proof.
  assert (H0 : ∀ f db t tb, fs sample_world !! lit "norms_decoded.db" = Some f →
                read_database f = Some db → t ∈ tables → db !! t = Some tb →
                storage_order t (records tb) ≡ₚ reverse_order t (records tb)).
  { intros f db t tb _ _ _ _. unfold storage_order, reverse_order. apply Permutation_rev. }
  assert (H1 : export_to_json half_repr storage_order sample_world
               = (Return (), (export_to_json half_repr storage_order sample_world).2))
    by (vm_compute; reflexivity).
  assert (H2 : export_to_json half_repr reverse_order sample_world
               = (Return (), (export_to_json half_repr reverse_order sample_world).2))
    by (vm_compute; reflexivity).
  split; [exact H0|]. split; [exact H1|]. split; [exact H2|].
  exact (arrays_agree_up_to_order half_repr storage_order reverse_order _ _ _ H0 H1 H2).
Defined.

(** ** Nothing is lost in the rendering *)

Lemma scanbytes_char q c tail :
  q = 39 ∨ q = 34 → c < 256 →
  scanbytes q (bytes_repr_char q c ++ tail) = push c (scanbytes q tail).
Proof.
  intros Hq Hc. unfold bytes_repr_char.
  destruct ((c =? q) || (c =? 92)) eqn:E1.
  { apply orb_true_iff in E1 as [E|E]; apply N.eqb_eq in E; subst c.
    - cbn [app scanbytes]. destruct Hq as [-> | ->]; reflexivity.
    - cbn [app scanbytes]. destruct Hq as [-> | ->]; reflexivity. }
  apply orb_false_iff in E1 as [Eq E92].
  destruct (c =? 9) eqn:E9.
  { apply N.eqb_eq in E9 as ->. destruct Hq as [-> | ->]; reflexivity. }
  destruct (c =? 10) eqn:E10.
  { apply N.eqb_eq in E10 as ->. destruct Hq as [-> | ->]; reflexivity. }
  destruct (c =? 13) eqn:E13.
  { apply N.eqb_eq in E13 as ->. destruct Hq as [-> | ->]; reflexivity. }
  destruct ((c <? 32) || (127 <=? c)) eqn:E2.
  - cbn [app hex2 scanbytes].
    assert (H92 : (92 =? q) = false) by (destruct Hq as [-> | ->]; reflexivity).
    rewrite H92. change (92 =? 92) with true. change (120 =? 120) with true. cbv iota.
    rewrite N.shiftr_div_pow2. change (2 ^ 4) with 16.
    rewrite !hexval_hexdigit by lia.
    f_equal. lia.
  - cbn [app scanbytes]. now rewrite Eq, E92.
Qed.

Lemma scanbytes_body q b rest :
  q = 39 ∨ q = 34 → Forall (λ c, c < 256) b →
  scanbytes q (concat (map (bytes_repr_char q) b) ++ q :: rest) = Some (b, rest).
Proof.
  intros Hq Hb. induction Hb as [|c b Hc Hb IH].
  - cbn [map concat app scanbytes]. now rewrite N.eqb_refl.
  - cbn [map concat]. rewrite <- app_assoc, scanbytes_char by assumption.
    now rewrite IH.
Qed.

Lemma bytes_unrepr_repr b :
  Forall (λ c, c < 256) b → bytes_unrepr (bytes_repr b) = Some b.
Proof.
  intros Hb. unfold bytes_repr, bytes_unrepr. cbv zeta. cbn [app].
  change (98 =? 98) with true.
  pose proof (bytes_quote_cases b) as Hq.
  assert (Hqb : (bytes_quote b =? 39) || (bytes_quote b =? 34) = true)
    by (destruct Hq as [-> | ->]; reflexivity).
  rewrite Hqb. cbn [andb].
  now rewrite (scanbytes_body _ b [] Hq Hb).
Qed.

Section Lossless.

Context {finite : Type}.
Variable float_repr : finite → pystr.

(** The field written for a blob, read back as a string and that string
    as a bytes literal, is the blob; so two blobs that are written alike
    are the same blob. *)
Theorem blob_field_reads_back_to_the_blob (b : list N) indent lvl :
  Forall (λ c, c < 256) b →
  (∃ token,
      iterencode float_repr indent (Some bytes_repr) lvl (py_of_sql (SBlob b)) = Some token
      ∧ loads_string token ≫= bytes_unrepr = Some b)
  ∧ ∀ b', Forall (λ c, c < 256) b' →
          iterencode float_repr indent (Some bytes_repr) lvl (py_of_sql (SBlob b'))
          = iterencode float_repr indent (Some bytes_repr) lvl (py_of_sql (SBlob b)) →
          b' = b.
Proof.
  intros Hb.
  assert (Hback : ∀ x, Forall (λ c, c < 256) x →
            loads_string (encode_basestring_ascii (bytes_repr x)) ≫= bytes_unrepr = Some x).
  { intros x Hx.
    rewrite loads_string_encode by apply printable_valid_text, bytes_repr_printable.
    cbn [mbind option_bind]. now apply bytes_unrepr_repr. }
  split.
  - eexists. split; [reflexivity|]. now apply Hback.
  - intros b' Hb' Heq. cbn [py_of_sql iterencode] in Heq.
    apply (f_equal (λ o : option pystr, (o ≫= loads_string) ≫= bytes_unrepr)) in Heq.
    cbn [mbind option_bind] in Heq.
    pose proof (Hback b Hb) as H1. pose proof (Hback b' Hb') as H2.
    cbn [mbind option_bind] in H1, H2. rewrite H1, H2 in Heq. now injection Heq.
Qed.

(** Two texts, or two column names, that hold no surrogate and are
    written as the same string literal are the same text. *)
Theorem string_literals_never_collide (s1 s2 : pystr) indent lvl :
  valid_text s1 → valid_text s2 →
  iterencode float_repr indent (Some bytes_repr) lvl (PStr s1)
  = iterencode float_repr indent (Some bytes_repr) lvl (PStr s2) →
  s1 = s2.
Proof.
  intros H1 H2 Heq. cbn [iterencode] in Heq.
  apply (f_equal (λ o, o ≫= loads_string)) in Heq.
  cbn [mbind option_bind] in Heq.
  rewrite !loads_string_encode in Heq by assumption. now injection Heq.
Qed.

End Lossless.

Lemma blob_field_reads_back_to_the_blob_witness :
  Forall (λ c, c < 256) [104; 105; 39; 0; 255]
  ∧ (∃ token,
        iterencode half_repr 2 (Some bytes_repr) 3 (py_of_sql (SBlob [104; 105; 39; 0; 255]))
        = Some token
        ∧ loads_string token ≫= bytes_unrepr = Some [104; 105; 39; 0; 255])
  ∧ ∀ b', Forall (λ c, c < 256) b' →
          iterencode half_repr 2 (Some bytes_repr) 3 (py_of_sql (SBlob b'))
          = iterencode half_repr 2 (Some bytes_repr) 3
              (py_of_sql (SBlob [104; 105; 39; 0; 255])) →
          b' = [104; 105; 39; 0; 255].
Proof.
  assert (H : Forall (λ c, c < 256) [104; 105; 39; 0; 255]) by (repeat constructor).
  split; [exact H|].
  exact (blob_field_reads_back_to_the_blob half_repr [104; 105; 39; 0; 255] 2%nat 3%nat H).
Defined.

Lemma string_literals_never_collide_witness :
  valid_text [233; 128512; 34; 92]
  ∧ valid_text [233; 128512; 34; 92]
  ∧ iterencode half_repr 2 (Some bytes_repr) 3 (PStr [233; 128512; 34; 92])
    = iterencode half_repr 2 (Some bytes_repr) 3 (PStr [233; 128512; 34; 92])
  ∧ [233; 128512; 34; 92] = [233; 128512; 34; 92].
Proof.
  assert (H : valid_text [233; 128512; 34; 92]) by (repeat constructor).
  split; [exact H|]. split; [exact H|]. split; [reflexivity|].
  exact (string_literals_never_collide half_repr _ _ 2%nat 3%nat H H eq_refl).
Defined.
